(** * The devspace helm client: bootstrap, teardown and release reconciliation

    A shallow embedding of [pkg/devspace/clients/helm/client.go].

    The functions of that file talk to collaborators the package does not
    own: the Kubernetes API, the Tiller installer, the port forwarder, the
    helm RPC client, the chart loader and the local file system.  Every
    such call is an explicit [Call]; the collaborators are one function
    [respond] over an abstract world, so that each theorem holds whatever
    the cluster answers.  The model keeps the log of calls and of their
    replies, in program order. *)

From Stdlib Require Import ZArith List String Ascii Bool Lia DecimalString.
From Stdlib Require Import Permutation.
Import ListNotations.

Local Open Scope string_scope.
Local Open Scope Z_scope.

(** ** The pieces of Go the package relies on *)

Module Go.

(** A Go [error]: [nil] is [None]; a non-nil error is the text its
    [Error()] method returns. *)
Definition error := option string.

Definition is_nil (e : error) : bool :=
  match e with None => true | Some _ => false end.

(** [errors.New]. *)
Definition errors_New (text : string) : error := Some text.

(** [time.Duration] is an int64 count of nanoseconds. *)
Definition Duration := Z.
Definition Second : Duration := 1000000000.

Definition wrap64 (z : Z) : Z := (z + 2 ^ 63) mod 2 ^ 64 - 2 ^ 63.
Definition sub64 (a b : Z) : Z := wrap64 (a - b).

(** [strings.Contains]. *)
Fixpoint Contains (s substr : string) : bool :=
  if String.prefix substr s then true
  else match s with
       | EmptyString => false
       | String _ rest => Contains rest substr
       end.

(** [strconv.Itoa]. *)
Definition Itoa (i : Z) : string := NilZero.string_of_int (Z.to_int i).

Definition newline : string := String (ascii_of_nat 10) EmptyString.

End Go.

Import Go.

(** ** Data *)

(** [v1.PrivateConfig], the two fields the package reads:
    [Cluster.TillerNamespace] and [Release.Namespace]. *)
Record PrivateConfig := {
  Cluster_TillerNamespace : string;
  Release_Namespace : string
}.

Record PolicyRule := {
  APIGroups : list string;
  Resources : list string;
  Verbs : list string
}.

Record ObjectMeta := { Name : string; Namespace : string }.

Record ServiceAccount := { sa_ObjectMeta : ObjectMeta }.

Record Role := { role_ObjectMeta : ObjectMeta; Rules : list PolicyRule }.

Record Subject := {
  subject_Kind : string;
  subject_Name : string;
  subject_Namespace : string
}.

Record RoleRef := {
  ref_APIGroup : string;
  ref_Kind : string;
  ref_Name : string
}.

Record RoleBinding := {
  rb_ObjectMeta : ObjectMeta;
  Subjects : list Subject;
  rb_RoleRef : RoleRef
}.

(** [Deployment.Status], the two int32 counters the readiness poll reads. *)
Record Deployment := { ReadyReplicas : Z; Replicas : Z }.

(** [helminstaller.Options]. *)
Record Options := {
  opt_Namespace : string;
  MaxHistory : Z;
  ImageSpec : string;
  opt_ServiceAccount : string
}.

(** [kube.Tunnel]: the local port. *)
Record Tunnel := { tunnel_Local : Z }.

(** The [rest.Config] handle [kubectl.GetClientConfig] hands out. *)
Definition RestConfig := string.

(** [k8shelm.Client] as [k8shelm.NewClient] builds it from its options. *)
Record HelmClient := { Host : string; ConnectTimeout : Z }.

Record Chart := { chart_Name : string; chart_Dependencies : list string }.

Record Release := { rel_Name : string; rel_Namespace : string }.

(** The options of [UpdateRelease] the package sets. *)
Record UpdateOptions := {
  UpgradeTimeout : Z;
  UpdateValueOverrides : string;
  ReuseValues : bool;
  UpgradeWait : bool
}.

(** The options of [InstallReleaseFromChart] the package sets. *)
Record InstallOptions := {
  InstallTimeout : Z;
  ValueOverrides : string;
  ReleaseName : string;
  InstallReuseName : bool;
  InstallWait : bool
}.

(** [repo.Entry] of the repository registry file. *)
Record Entry := { entry_Name : string; entry_URL : string; entry_Cache : string }.

(** [repo.ChartRepository]: the entry it was built from. *)
Record ChartRepository := { Config : Entry }.

(** [HelmClientWrapper] ([kubectl] is the clientset every call goes
    through; it is the world of the model). *)
Record HelmClientWrapper := { Client : HelmClient; Settings_Home : string }.

(** ** Calls to the collaborators and their replies *)

Inductive Call :=
| ConfigLoadConfig
| KubectlGetClientConfig
| DeploymentsGet (ns name : string)
| DeploymentsDelete (ns name : string)
| ServiceAccountsGet (ns name : string)
| ServiceAccountsCreate (ns : string) (sa : ServiceAccount)
| ServiceAccountsDelete (ns name : string)
| RolesCreate (ns : string) (r : Role)
| RolesDelete (ns name : string)
| RoleBindingsCreate (ns : string) (rb : RoleBinding)
| RoleBindingsDelete (ns name : string)
| InstallerInstall (o : Options)
| InstallerUpgrade (o : Options)
| TimeSleep (d : Duration)
| PortforwarderNew (ns : string) (kubeconfig : RestConfig)
| ListReleases (c : HelmClient) (limit : Z)
| ReleaseHistory (c : HelmClient) (rlsName : string) (max : Z)
| UpdateRelease (c : HelmClient) (rlsName chartPath : string) (o : UpdateOptions)
| InstallReleaseFromChart (c : HelmClient) (chart : Chart) (ns : string)
                          (o : InstallOptions)
| ClientDeleteRelease (c : HelmClient) (rlsName : string) (purge : bool)
| ChartutilLoad (path : string)
| ChartutilLoadRequirements (chart : Chart)
| ManagerUpdate
| DownloadTo (ref version dest : string)
| HomedirDir
| MkdirAll (path : string)
| Stat (path : string)
| WriteToFile (content path : string)
| LoadRepositoriesFile (path : string)
| NewChartRepository (cfg : Entry)
| DownloadIndexFile (re : ChartRepository) (cachePath : string)
| LogStartWait (message : string)
| LogStopWait
| LogDone (message : string)
| LogError (err : string) (message : string).

Inductive Reply :=
| RUnit
| RErr (e : error)
| RConfig (c : PrivateConfig)
| RRest (k : RestConfig) (e : error)
| RDeployment (d : Deployment) (e : error)
| RTunnel (t : Tunnel) (e : error)
| RString (s : string) (e : error)
| RChart (c : Chart) (e : error)
| RRelease (r : option Release) (e : error)
| REntries (l : list Entry) (e : error)
| RRepo (r : ChartRepository) (e : error).

(** The error a reply carries. *)
Definition err_of (r : Reply) : error :=
  match r with
  | RUnit | RConfig _ => None
  | RErr e | RRest _ e | RDeployment _ e | RTunnel _ e | RString _ e
  | RChart _ e | RRelease _ e | REntries _ e | RRepo _ e => e
  end.

(** The value a reply carries; a reply of another shape reads as Go's zero
    value. *)
Definition config_of (r : Reply) : PrivateConfig :=
  match r with RConfig c => c | _ => Build_PrivateConfig "" "" end.
Definition rest_of (r : Reply) : RestConfig :=
  match r with RRest k _ => k | _ => "" end.
Definition deployment_of (r : Reply) : Deployment :=
  match r with RDeployment d _ => d | _ => Build_Deployment 0 0 end.
Definition tunnel_of (r : Reply) : Tunnel :=
  match r with RTunnel t _ => t | _ => Build_Tunnel 0 end.
Definition string_of (r : Reply) : string :=
  match r with RString s _ => s | _ => "" end.
Definition chart_of (r : Reply) : Chart :=
  match r with RChart c _ => c | _ => Build_Chart "" [] end.
Definition release_of (r : Reply) : option Release :=
  match r with RRelease x _ => x | _ => None end.
Definition entries_of (r : Reply) : list Entry :=
  match r with REntries l _ => l | _ => [] end.
Definition repo_of (r : Reply) : ChartRepository :=
  match r with RRepo x _ => x | _ => Build_ChartRepository (Build_Entry "" "" "") end.

Record Event := { call : Call; reply : Reply }.

(** The collaborators.  [respond] answers a call and moves the world on.
    The other fields are pure functions of libraries outside the package:
    [ErrReleaseNotFound] is the text of
    [helmstoragedriver.ErrReleaseNotFound(name).Error()], [yaml_Marshal] is
    [yaml.Marshal] on a value-override map, [filepath_Dir] is
    [filepath.Dir], and [Home_RepositoryFile], [Home_String] and
    [Home_Archive] are the methods of [helmpath.Home]. *)
Record Env (W V : Type) := {
  respond : Call -> W -> Reply * W;
  ErrReleaseNotFound : string -> string;
  yaml_Marshal : V -> string * error;
  filepath_Dir : string -> string;
  Home_RepositoryFile : string -> string;
  Home_String : string -> string;
  Home_Archive : string -> string
}.
Arguments respond {W V} _ _ _.
Arguments ErrReleaseNotFound {W V} _ _.
Arguments yaml_Marshal {W V} _ _.
Arguments filepath_Dir {W V} _ _.
Arguments Home_RepositoryFile {W V} _ _.
Arguments Home_String {W V} _ _.
Arguments Home_Archive {W V} _ _.

(** ** The monad: world and event log, with divergence *)

Record St (W : Type) := { world : W; trace : list Event }.
Arguments world {W} _.
Arguments trace {W} _.
Arguments Build_St {W} _ _.

(** A computation either returns a value and a new state, or is still
    running when the fuel of its loops is spent ([None]). *)
Definition M (W A : Type) := St W -> option (A * St W).

Definition ret {W A} (a : A) : M W A := fun st => Some (a, st).

Definition bind {W A B} (m : M W A) (k : A -> M W B) : M W B :=
  fun st => match m st with
            | Some (a, st') => k a st'
            | None => None
            end.

Declare Scope go_scope.
Delimit Scope go_scope with go.
Notation "x <- m ;; k" := (bind m (fun x => k))
  (at level 61, m at next level, right associativity) : go_scope.
Notation "m ;;; k" := (bind m (fun _ => k))
  (at level 61, right associativity) : go_scope.
Local Open Scope go_scope.

(** One call: ask the collaborators, log the call with its reply. *)
Definition call_world {W V} (E : Env W V) (c : Call) (st : St W) : Reply * St W :=
  let (r, w) := respond E c (world st) in
  (r, Build_St w (trace st ++ [Build_Event c r])).

Definition perform {W V} (E : Env W V) (c : Call) : M W Reply :=
  fun st => Some (call_world E c st).

(** [for cond { body }]: [body] runs one turn of the loop, condition
    included, and says whether to go round again ([inl]) or leave
    ([inr]). *)
Fixpoint loop {W X A} (fuel : nat) (body : X -> M W (X + A)) (s : X) : M W A :=
  match fuel with
  | O => fun _ => None
  | S fuel' =>
      r <- body s ;;
      match r with
      | inl s' => loop fuel' body s'
      | inr a => ret a
      end
  end.

(** [for key, value := range l { body }], threading the variables the
    body assigns. *)
Fixpoint range {W X} (l : list string) (key : nat)
         (body : nat -> string -> X -> M W X) (s : X) : M W X :=
  match l with
  | [] => ret s
  | value :: rest => s' <- body key value s ;; range rest (S key) body s'
  end.

(** ** Constants of the package and of the Kubernetes API it names *)

Definition tillerServiceAccountName := "devspace-tiller".
Definition tillerRoleName := "devspace-tiller".
Definition tillerDeploymentName := "tiller-deploy".
Definition stableRepoCachePath := "repository/cache/stable-index.yaml".

Definition defaultRepositories : string :=
  "apiVersion: v1" ++ newline ++
  "repositories:" ++ newline ++
  "- caFile: " ++ String (ascii_of_nat 34) (String (ascii_of_nat 34) "") ++ newline ++
  "  cache: " ++ stableRepoCachePath ++ newline ++
  "  certFile: " ++ String (ascii_of_nat 34) (String (ascii_of_nat 34) "") ++ newline ++
  "  keyFile: " ++ String (ascii_of_nat 34) (String (ascii_of_nat 34) "") ++ newline ++
  "  name: stable" ++ newline ++
  "  url: https://kubernetes-charts.storage.googleapis.com" ++ newline.

Definition APIGroupAll := "*".
Definition ResourceAll := "*".
Definition ServiceAccountKind := "ServiceAccount".

Definition defaultPolicyRules : list PolicyRule :=
  [ {| APIGroups := [APIGroupAll; "extensions"; "apps"];
       Resources := [ResourceAll];
       Verbs := [ResourceAll] |} ].

(** The rules of the grant [ensureTiller] makes for Tiller's own
    namespace. *)
Definition configManagerRules : list PolicyRule :=
  [ {| APIGroups := [APIGroupAll; "extensions"; "apps"];
       Resources := ["configmaps"];
       Verbs := [ResourceAll] |} ].

(** ** The functions of client.go *)

Section Client.

Context {W V : Type} (E : Env W V).

(** *** ensureRoleBinding *)

Definition grantRole (name namespace : string) (rules : list PolicyRule) : Role :=
  {| role_ObjectMeta := {| Name := name; Namespace := namespace |};
     Rules := rules |}.

Definition grantRoleBinding (name namespace tillerNamespace : string)
           (role : Role) : RoleBinding :=
  {| rb_ObjectMeta := {| Name := name ++ "-binding"; Namespace := namespace |};
     Subjects := [ {| subject_Kind := ServiceAccountKind;
                      subject_Name := tillerServiceAccountName;
                      subject_Namespace := tillerNamespace |} ];
     rb_RoleRef := {| ref_APIGroup := "rbac.authorization.k8s.io";
                      ref_Kind := "Role";
                      ref_Name := Name (role_ObjectMeta role) |} |}.

(** Both [Create] calls are statements: neither result is bound. *)
Definition ensureRoleBinding (name namespace tillerNamespace : string)
           (rules : list PolicyRule) : M W error :=
  let role := grantRole name namespace rules in
  let rolebinding := grantRoleBinding name namespace tillerNamespace role in
  perform E (RolesCreate namespace role) ;;;
  perform E (RoleBindingsCreate namespace rolebinding) ;;;
  ret None.

(** *** DeleteTiller *)

(** [if err != nil { errs = append(errs, err) }]; [errs] holds non-nil
    errors only, each kept as its text. *)
Definition append_err (errs : list string) (err : error) : list string :=
  match err with
  | Some text => errs ++ [text]
  | None => errs
  end.

(** The merge loop: [errorText += value.Error() + "\n"]. *)
Definition mergeErrors (errs : list string) : string :=
  fold_left (fun errorText value => errorText ++ value ++ newline) errs "".

Definition DeleteTiller (privateConfig : PrivateConfig) : M W error :=
  let errs := [] in
  r <- perform E (DeploymentsDelete (Cluster_TillerNamespace privateConfig)
                                    tillerDeploymentName) ;;
  let errs := append_err errs (err_of r) in
  r <- perform E (ServiceAccountsDelete (Cluster_TillerNamespace privateConfig)
                                        tillerServiceAccountName) ;;
  let errs := append_err errs (err_of r) in
  let deleteRoleNames := ["tiller-config-manager"; tillerRoleName] in
  let deleteRoleNamespaces :=
    [Cluster_TillerNamespace privateConfig; Release_Namespace privateConfig] in
  errs <- range deleteRoleNames 0
       (fun key value errs =>
          r <- perform E (RolesDelete (nth key deleteRoleNamespaces "") value) ;;
          let errs := append_err errs (err_of r) in
          r <- perform E (RoleBindingsDelete (nth key deleteRoleNamespaces "")
                                             (value ++ "-binding")) ;;
          ret (append_err errs (err_of r)))
       errs ;;
  let errorText := mergeErrors errs in
  if String.eqb errorText "" then ret None else ret (errors_New errorText).

(** *** ReleaseExists *)

Definition ReleaseExists (helmClientWrapper : HelmClientWrapper)
           (releaseName : string) : M W (bool * error) :=
  r <- perform E (ReleaseHistory (Client helmClientWrapper) releaseName 1) ;;
  match err_of r with
  | Some text =>
      if Contains text (ErrReleaseNotFound E releaseName)
      then ret (false, None)
      else ret (false, Some text)
  | None => ret (true, None)
  end.

(** *** ensureTiller *)

(** One turn of [for tillerWaitingTime > 0 { ... }]. *)
Definition tillerWaitBody (privateConfig : PrivateConfig)
           (tillerCheckInterval tillerWaitingTime : Duration)
  : M W (Duration + unit) :=
  if tillerWaitingTime >? 0 then
    r <- perform E (DeploymentsGet (Cluster_TillerNamespace privateConfig)
                                   tillerDeploymentName) ;;
    let tillerDeployment := deployment_of r in
    if ReadyReplicas tillerDeployment =? Replicas tillerDeployment
    then ret (inr tt)
    else
      perform E (TimeSleep tillerCheckInterval) ;;;
      ret (inl (sub64 tillerWaitingTime tillerCheckInterval))
  else ret (inr tt).

(** The tail of [ensureTiller], from [tillerWaitingTime := ...] to
    [return nil]. *)
Definition waitForTiller (fuel : nat) (privateConfig : PrivateConfig) : M W error :=
  let tillerWaitingTime := 2 * 60 * Second in
  let tillerCheckInterval := 5 * Second in
  perform E (LogStartWait "Waiting for Tiller server to start") ;;;
  loop fuel (tillerWaitBody privateConfig tillerCheckInterval) tillerWaitingTime ;;;
  perform E LogStopWait ;;;
  perform E (LogDone "Tiller server started") ;;;
  ret None.

(** The branch "Tiller is not there", from the service-account lookup to
    the second [ensureRoleBinding]; a non-nil result is the error the
    branch returns with. *)
Definition installTiller (privateConfig : PrivateConfig)
           (tillerSA : ServiceAccount) (tillerOptions : Options) : M W error :=
  r <- perform E (ServiceAccountsGet (Namespace (sa_ObjectMeta tillerSA))
                                     (Name (sa_ObjectMeta tillerSA))) ;;
  err <- match err_of r with
         | Some _ =>
             r <- perform E (ServiceAccountsCreate
                               (Namespace (sa_ObjectMeta tillerSA)) tillerSA) ;;
             ret (err_of r)
         | None => ret None
         end ;;
  match err with
  | Some _ => ret err
  | None =>
      err <- ensureRoleBinding "tiller-config-manager"
               (Cluster_TillerNamespace privateConfig)
               (Cluster_TillerNamespace privateConfig) configManagerRules ;;
      match err with
      | Some _ => ret err
      | None =>
          perform E (InstallerInstall tillerOptions) ;;;
          ensureRoleBinding tillerRoleName (Release_Namespace privateConfig)
            (Cluster_TillerNamespace privateConfig) defaultPolicyRules
      end
  end.

(** [privateConfig] is the package variable [config.LoadConfig] fills.
    The deferred [log.StopWait()] of the install branch runs at each of
    the returns that follow it. *)
Definition ensureTiller (fuel : nat) (privateConfig : PrivateConfig)
           (upgrade : bool) : M W error :=
  let tillerSA :=
    {| sa_ObjectMeta := {| Name := tillerServiceAccountName;
                           Namespace := Cluster_TillerNamespace privateConfig |} |} in
  let tillerOptions :=
    {| opt_Namespace := Cluster_TillerNamespace privateConfig;
       MaxHistory := 10;
       ImageSpec := "gcr.io/kubernetes-helm/tiller:v2.9.1";
       opt_ServiceAccount := Name (sa_ObjectMeta tillerSA) |} in
  r <- perform E (DeploymentsGet (Cluster_TillerNamespace privateConfig)
                                 tillerDeploymentName) ;;
  match err_of r with
  | Some _ =>
      perform E (LogStartWait "Installing Tiller server") ;;;
      err <- installTiller privateConfig tillerSA tillerOptions ;;
      match err with
      | Some _ => perform E LogStopWait ;;; ret err
      | None =>
          perform E LogStopWait ;;;
          res <- waitForTiller fuel privateConfig ;;
          perform E LogStopWait ;;;
          ret res
      end
  | None =>
      if upgrade then
        perform E (LogStartWait "Upgrading Tiller server") ;;;
        let tillerOptions :=
          {| opt_Namespace := opt_Namespace tillerOptions;
             MaxHistory := MaxHistory tillerOptions;
             ImageSpec := "";
             opt_ServiceAccount := opt_ServiceAccount tillerOptions |} in
        r <- perform E (InstallerUpgrade tillerOptions) ;;
        perform E LogStopWait ;;;
        match err_of r with
        | Some _ => ret (err_of r)
        | None => waitForTiller fuel privateConfig
        end
      else waitForTiller fuel privateConfig
  end.

(** *** updateRepos

    The refreshes run as goroutines joined by a [sync.WaitGroup].  A
    goroutine is at one of four points of its body; the main goroutine is
    in the launching loop, at [wg.Wait()], or past it.  [step] runs one
    action of one goroutine; any interleaving of the actions is a run. *)

Inductive Goroutine :=
| GStart (re : ChartRepository)
| GLog (re : ChartRepository) (err : string)
| GReturn (re : ChartRepository)
| GExited (re : ChartRepository).

Definition repo_of_goroutine (g : Goroutine) : ChartRepository :=
  match g with GStart re | GLog re _ | GReturn re | GExited re => re end.

Record Group := {
  toLaunch : list ChartRepository;
  returned : bool;
  wg : Z;
  goroutines : list Goroutine;
  shared : St W
}.

Inductive Choice := Main | Worker (i : nat).

Fixpoint replace_nth {A} (i : nat) (x : A) (l : list A) : list A :=
  match l, i with
  | [], _ => []
  | _ :: rest, O => x :: rest
  | y :: rest, S i' => y :: replace_nth i' x rest
  end.

(** The main goroutine: [wg.Add(1)] and [go func(re) {...}(re)] for the
    next repository, then [wg.Wait()], which lets it through when the
    counter is zero. *)
Definition step_main (g : Group) : option Group :=
  if returned g then None
  else match toLaunch g with
       | re :: rest =>
           Some {| toLaunch := rest; returned := false; wg := wg g + 1;
                   goroutines := goroutines g ++ [GStart re];
                   shared := shared g |}
       | [] =>
           if wg g =? 0
           then Some {| toLaunch := []; returned := true; wg := wg g;
                        goroutines := goroutines g; shared := shared g |}
           else None
       end.

(** Goroutine [i]: [re.DownloadIndexFile], the error log when it failed,
    and the deferred [wg.Done()]. *)
Definition step_goroutine (home : string) (i : nat) (g : Group) : option Group :=
  match nth_error (goroutines g) i with
  | Some (GStart re) =>
      let (r, st) := call_world E (DownloadIndexFile re (Home_String E home))
                                (shared g) in
      let next := match err_of r with
                  | Some err => GLog re err
                  | None => GReturn re
                  end in
      Some {| toLaunch := toLaunch g; returned := returned g; wg := wg g;
              goroutines := replace_nth i next (goroutines g); shared := st |}
  | Some (GLog re err) =>
      let (_, st) := call_world E (LogError err "Unable to download repo index")
                                (shared g) in
      Some {| toLaunch := toLaunch g; returned := returned g; wg := wg g;
              goroutines := replace_nth i (GReturn re) (goroutines g);
              shared := st |}
  | Some (GReturn re) =>
      Some {| toLaunch := toLaunch g; returned := returned g; wg := wg g - 1;
              goroutines := replace_nth i (GExited re) (goroutines g);
              shared := shared g |}
  | Some (GExited _) | None => None
  end.

Definition step (home : string) (c : Choice) (g : Group) : option Group :=
  match c with
  | Main => step_main g
  | Worker i => step_goroutine home i g
  end.

(** One action of some goroutine. *)
Definition steps (home : string) (g g' : Group) : Prop :=
  exists c, step home c g = Some g'.

(** The runs of the group. *)
Inductive run (home : string) : Group -> Group -> Prop :=
| run_refl g : run home g g
| run_step g g' g'' : run home g g' -> steps home g' g'' -> run home g g''.

(** The actions that can run now. *)
Definition enabled (home : string) (g : Group) : list Choice :=
  filter (fun c => match step home c g with Some _ => true | None => false end)
         (Main :: map Worker (seq 0 (List.length (goroutines g)))).

(** The actions a goroutine still has to run. *)
Definition pending (x : Goroutine) : nat :=
  match x with
  | GStart _ => 3
  | GLog _ _ => 2
  | GReturn _ => 1
  | GExited _ => 0
  end.

Definition budget (g : Group) : nat :=
  ((if returned g then 0 else 1) + 4 * List.length (toLaunch g)
   + list_sum (map pending (goroutines g)))%nat.

(** A scheduler picks, at its k-th decision, one of the enabled actions. *)
Definition Scheduler := nat -> nat.

Fixpoint schedule (home : string) (sched : Scheduler) (n k : nat) (g : Group)
  : Group :=
  match n with
  | O => g
  | S n' =>
      match enabled home g with
      | [] => g
      | c :: cs =>
          let pick := nth (Nat.modulo (sched k) (List.length (c :: cs))) (c :: cs) c in
          match step home pick g with
          | Some g' => schedule home sched n' (S k) g'
          | None => g
          end
      end
  end.

Definition launch (repos : list ChartRepository) (st : St W) : Group :=
  {| toLaunch := repos; returned := false; wg := 0; goroutines := [];
     shared := st |}.

(** The fan-out and the join, under a scheduler. *)
Definition refreshAll (sched : Scheduler) (home : string)
           (repos : list ChartRepository) : M W unit :=
  fun st =>
    let g0 := launch repos st in
    let g := schedule home sched (budget g0) 0 g0 in
    if returned g then Some (tt, shared g) else None.

(** [for _, repoData := range allRepos.Repositories]: a repository
    client per entry, or the first error. *)
Fixpoint newRepositories (entries : list Entry) (repos : list ChartRepository)
  : M W (list ChartRepository * error) :=
  match entries with
  | [] => ret (repos, None)
  | repoData :: rest =>
      r <- perform E (NewChartRepository repoData) ;;
      match err_of r with
      | Some _ => ret (repos, err_of r)
      | None => newRepositories rest (repos ++ [repo_of r])
      end
  end.

Definition updateRepos (sched : Scheduler) (helmClientWrapper : HelmClientWrapper)
  : M W error :=
  r <- perform E (LoadRepositoriesFile
                    (Home_RepositoryFile E (Settings_Home helmClientWrapper))) ;;
  match err_of r with
  | Some _ => ret (err_of r)
  | None =>
      built <- newRepositories (entries_of r) [] ;;
      match snd built with
      | Some _ => ret (snd built)
      | None =>
          refreshAll sched (Settings_Home helmClientWrapper) (fst built) ;;;
          ret None
      end
  end.

(** *** NewClient *)

(** One turn of [for tunnelWaitTime > 0 { ... }].  [portforwarder.New]
    hands out a tunnel whenever its error is nil; the tunnel variable is
    read only then. *)
Definition tunnelBody (privateConfig : PrivateConfig) (kubeconfig : RestConfig)
           (tunnelCheckInterval : Duration) (s : Duration * Tunnel * error)
  : M W (Duration * Tunnel * error + Tunnel * error) :=
  let '(tunnelWaitTime, tunnel, tunnelErr) := s in
  if tunnelWaitTime >? 0 then
    r <- perform E (PortforwarderNew (Cluster_TillerNamespace privateConfig)
                                     kubeconfig) ;;
    let tunnel := tunnel_of r in
    let tunnelErr := err_of r in
    if is_nil tunnelErr || (tunnelWaitTime <? 0) then ret (inr (tunnel, tunnelErr))
    else
      let tunnelWaitTime := sub64 tunnelWaitTime tunnelCheckInterval in
      perform E (TimeSleep tunnelCheckInterval) ;;;
      ret (inl (tunnelWaitTime, tunnel, tunnelErr))
  else ret (inr (tunnel, tunnelErr)).

(** One turn of [for helmWaitTime > 0 { ... }]: the body assigns
    [tillerError] only. *)
Definition helmBody (client : HelmClient) (s : Duration * error)
  : M W (Duration * error + error) :=
  let '(helmWaitTime, tillerError) := s in
  if helmWaitTime >? 0 then
    r <- perform E (ListReleases client 1) ;;
    let tillerError := err_of r in
    if is_nil tillerError || (helmWaitTime <? 0) then ret (inr tillerError)
    else ret (inl (helmWaitTime, tillerError))
  else ret (inr tillerError).

(** From [helmWaitTime := ...] to [log.Done("Tiller server is ready")]:
    the client and the error the loop leaves in [tillerError]. *)
Definition awaitTiller (fuel : nat) (tunnel : Tunnel) : M W (HelmClient * error) :=
  let helmWaitTime := 2 * 60 * Second in
  let helmCheckInterval := 5 * Second in
  let client := {| Host := "127.0.0.1:" ++ Itoa (tunnel_Local tunnel);
                   ConnectTimeout := helmCheckInterval |} in
  perform E (LogStartWait "Waiting for tiller server to become ready") ;;;
  tillerError <- loop fuel (helmBody client) (helmWaitTime, None) ;;
  perform E LogStopWait ;;;
  perform E (LogDone "Tiller server is ready") ;;;
  ret (client, tillerError).

(** From [homedir.Dir()] to the end. *)
Definition prepareHome (sched : Scheduler) (client : HelmClient)
  : M W (option HelmClientWrapper * error) :=
  r <- perform E HomedirDir ;;
  match err_of r with
  | Some _ => ret (None, err_of r)
  | None =>
      let homeDir := string_of r in
      let helmHomePath := homeDir ++ "/.devspace/helm" in
      let repoPath := helmHomePath ++ "/repository" in
      let repoFile := repoPath ++ "/repositories.yaml" in
      let stableRepoCachePathAbs := helmHomePath ++ "/" ++ stableRepoCachePath in
      perform E (MkdirAll (helmHomePath ++ "/cache")) ;;;
      perform E (MkdirAll repoPath) ;;;
      perform E (MkdirAll (filepath_Dir E stableRepoCachePathAbs)) ;;;
      r <- perform E (Stat repoFile) ;;
      match err_of r with
      | Some _ => perform E (WriteToFile defaultRepositories repoFile) ;;; ret tt
      | None => ret tt
      end ;;;
      let wrapper := {| Client := client; Settings_Home := helmHomePath |} in
      r <- perform E (Stat stableRepoCachePathAbs) ;;
      match err_of r with
      | Some _ => updateRepos sched wrapper ;;; ret tt
      | None => ret tt
      end ;;;
      ret (Some wrapper, None)
  end.

Definition NewClient (fuel : nat) (sched : Scheduler) (upgradeTiller : bool)
  : M W (option HelmClientWrapper * error) :=
  r <- perform E ConfigLoadConfig ;;
  let privateConfig := config_of r in
  r <- perform E KubectlGetClientConfig ;;
  let kubeconfig := rest_of r in
  match err_of r with
  | Some _ => ret (None, err_of r)
  | None =>
      tillerErr <- ensureTiller fuel privateConfig upgradeTiller ;;
      match tillerErr with
      | Some _ => ret (None, tillerErr)
      | None =>
          let tunnelWaitTime := 2 * 60 * Second in
          let tunnelCheckInterval := 5 * Second in
          perform E (LogStartWait
                       "Waiting for tiller portforwarding to become ready") ;;;
          t <- loop fuel (tunnelBody privateConfig kubeconfig tunnelCheckInterval)
                    (tunnelWaitTime, Build_Tunnel 0, None) ;;
          perform E LogStopWait ;;;
          match snd t with
          | Some _ => ret (None, snd t)
          | None =>
              h <- awaitTiller fuel (fst t) ;;
              match snd h with
              | Some _ => ret (None, snd h)
              | None => prepareHome sched (fst h)
              end
          end
      end
  end.

(** *** InstallChartByPath, InstallChartByName, DeleteRelease *)

(** The block [if len(chartDependencies) > 0 { ... }]: the chart to go
    on with, or the error to return. *)
Definition resolveDependencies (chartPath : string) (chart : Chart)
  : M W (Chart * error) :=
  if (0 <? List.length (chart_Dependencies chart))%nat then
    r <- perform E (ChartutilLoadRequirements chart) ;;
    match err_of r with
    | Some _ => ret (chart, err_of r)
    | None =>
        r <- perform E ManagerUpdate ;;
        match err_of r with
        | Some _ => ret (chart, err_of r)
        | None =>
            r <- perform E (ChartutilLoad chartPath) ;;
            ret (chart_of r, err_of r)
        end
    end
  else ret (chart, None).

Definition InstallChartByPath (helmClientWrapper : HelmClientWrapper)
           (releaseName releaseNamespace chartPath : string) (values : option V)
  : M W (option Release * error) :=
  r <- perform E (ChartutilLoad chartPath) ;;
  match err_of r with
  | Some _ => ret (None, err_of r)
  | None =>
      c <- resolveDependencies chartPath (chart_of r) ;;
      match snd c with
      | Some _ => ret (None, snd c)
      | None =>
          let chart := fst c in
          x <- ReleaseExists helmClientWrapper releaseName ;;
          let (releaseExists, releaseExistsErr) := x in
          match releaseExistsErr with
          | Some _ => ret (None, releaseExistsErr)
          | None =>
              let deploymentTimeout := 10 * 60 in
              let overwriteValues := "" in
              let (overwriteValues, yamlErr) :=
                match values with
                | Some v =>
                    let (unmarshalledValues, yamlErr) := yaml_Marshal E v in
                    match yamlErr with
                    | Some _ => (overwriteValues, yamlErr)
                    | None => (unmarshalledValues, None)
                    end
                | None => (overwriteValues, None)
                end in
              match yamlErr with
              | Some _ => ret (None, yamlErr)
              | None =>
                  if releaseExists then
                    r <- perform E (UpdateRelease (Client helmClientWrapper)
                           releaseName chartPath
                           {| UpgradeTimeout := deploymentTimeout;
                              UpdateValueOverrides := overwriteValues;
                              ReuseValues := false;
                              UpgradeWait := true |}) ;;
                    match err_of r with
                    | Some _ => ret (None, err_of r)
                    | None => ret (release_of r, None)
                    end
                  else
                    r <- perform E (InstallReleaseFromChart (Client helmClientWrapper)
                           chart releaseNamespace
                           {| InstallTimeout := deploymentTimeout;
                              ValueOverrides := overwriteValues;
                              ReleaseName := releaseName;
                              InstallReuseName := false;
                              InstallWait := true |}) ;;
                    match err_of r with
                    | Some _ => ret (None, err_of r)
                    | None => ret (release_of r, None)
                    end
              end
          end
      end
  end.



Definition DeleteRelease (helmClientWrapper : HelmClientWrapper)
           (releaseName : string) (purge : bool) : M W (Reply * error) :=
  r <- perform E (ClientDeleteRelease (Client helmClientWrapper) releaseName purge) ;;
  ret (r, err_of r).

End Client.

(** ** The progress line of the log package

    [pkg/util/log/loading_text.go]: the line [log.StartWait] shows until
    [log.StopWait].  The stream and the colour calls of the terminal are
    kept as the list of what was sent, in order. *)

Module LoadingText.

Inductive Output :=
| StreamWrite (p : string)
| Foreground (bright : bool)
| ResetColor.

(** [stopChan] is whether the channel has been made. *)
Record loadingText := {
  Stream : list Output;
  Message : string;
  loadingRune : Z;
  isShown : bool;
  stopChan : bool
}.

Definition waitInterval : Duration := 1000000 * 150.

Definition carriageReturn : string := String (ascii_of_nat 13) EmptyString.
Definition backslash : string := String (ascii_of_nat 92) EmptyString.

Definition write (p : string) (l : loadingText) : loadingText :=
  {| Stream := Stream l ++ [StreamWrite p]; Message := Message l;
     loadingRune := loadingRune l; isShown := isShown l;
     stopChan := stopChan l |}.

Definition colour (o : Output) (l : loadingText) : loadingText :=
  {| Stream := Stream l ++ [o]; Message := Message l;
     loadingRune := loadingRune l; isShown := isShown l;
     stopChan := stopChan l |}.

(** The switch has no default: outside 0..3 the character is empty.
    [loadingRune] is an [int], 64 bits wide. *)
Definition getLoadingChar (l : loadingText) : string * loadingText :=
  let loadingChar :=
    if loadingRune l =? 0 then "|"
    else if loadingRune l =? 1 then "/"
    else if loadingRune l =? 2 then "-"
    else if loadingRune l =? 3 then backslash
    else "" in
  let next := wrap64 (loadingRune l + 1) in
  (loadingChar,
   {| Stream := Stream l; Message := Message l;
      loadingRune := if next >? 3 then 0 else next;
      isShown := isShown l; stopChan := stopChan l |}).

Definition render (l : loadingText) : loadingText :=
  let l := if negb (isShown l)
           then {| Stream := Stream l; Message := Message l;
                   loadingRune := loadingRune l; isShown := true;
                   stopChan := stopChan l |}
           else write carriageReturn l in
  let l := colour (Foreground false) l in
  let l := write "[WAIT] " l in
  let l := colour ResetColor l in
  let (loadingChar, l) := getLoadingChar l in
  write (loadingChar ++ " " ++ Message l) l.

(** What [Stop] sends to the stream once its send on [stopChan] has been
    taken. *)
Definition erase (l : loadingText) : loadingText :=
  let l := write carriageReturn l in
  let messageLength := (String.length (Message l) + 9)%nat in
  let l := fold_left (fun l _ => write " " l) (seq 0 messageLength) l in
  write carriageReturn l.

(** The text and the goroutines [Start] has launched that have not
    returned: those that have not rendered yet and those in their
    [select]. *)
Record Running := {
  spinner : loadingText;
  rendering : nat;
  selecting : nat
}.

Definition idle (l : loadingText) : Running :=
  {| spinner := l; rendering := O; selecting := O |}.

Definition Start (s : Running) : Running :=
  {| spinner := {| Stream := Stream (spinner s); Message := Message (spinner s);
                   loadingRune := loadingRune (spinner s); isShown := false;
                   stopChan := true |};
     rendering := S (rendering s);
     selecting := selecting s |}.

(** A launched goroutine renders once and enters its loop. *)
Definition firstRender (s : Running) : option Running :=
  match rendering s with
  | O => None
  | S n => Some {| spinner := render (spinner s); rendering := n;
                   selecting := S (selecting s) |}
  end.

(** [case <-time.After(waitInterval)]: a goroutine in its [select]
    renders again. *)
Definition tick (s : Running) : option Running :=
  match selecting s with
  | O => None
  | S _ => Some {| spinner := render (spinner s); rendering := rendering s;
                   selecting := selecting s |}
  end.

(** [Stop]: the send on [stopChan] is taken by a goroutine in its
    [select], which returns; with none there the send blocks ([None]). *)
Definition Stop (s : Running) : option Running :=
  match selecting s with
  | O => None
  | S n => Some {| spinner := erase (spinner s); rendering := rendering s;
                   selecting := n |}
  end.

(** [n] timer ticks in a row. *)
Fixpoint ticks (n : nat) (s : Running) : option Running :=
  match n with
  | O => Some s
  | S n' => match tick s with
            | Some s' => ticks n' s'
            | None => None
            end
  end.

(** The text a list of outputs puts on the stream. *)
Definition written (outs : list Output) : string :=
  fold_right (fun o acc => match o with
                           | StreamWrite p => p ++ acc
                           | _ => acc
                           end) "" outs.

(** The character of the rotation at a position. *)
Definition spoke (r : Z) : string :=
  match r mod 4 with
  | 0 => "|"
  | 1 => "/"
  | 2 => "-"
  | _ => backslash
  end.

(** The line a render shows when the rotation is at [r]. *)
Definition line (message : string) (r : Z) : string :=
  "[WAIT] " ++ spoke r ++ " " ++ message.

(** [n] lines one over the other from rotation [r] on, each after a
    carriage return. *)
Fixpoint redrawn (message : string) (r : Z) (n : nat) : string :=
  match n with
  | O => ""
  | S n' => carriageReturn ++ line message r ++ redrawn message (r + 1) n'
  end.

Definition blanks (n : nat) : string :=
  fold_right (fun _ acc => " " ++ acc) "" (seq 0 n).

End LoadingText.

(** ** Reading the log and describing runs *)

(** The texts of the non-nil errors the replies of a log carry, in
    order. *)
Definition failures (tr : list Event) : list string :=
  flat_map (fun ev => match err_of (reply ev) with
                      | Some text => [text]
                      | None => []
                      end) tr.




(** A log is what the collaborators answered from the world [w] on: each
    reply is the one [respond] gives to the call in the world the call is
    made in, and the world moves on as [respond] says, to end as [w']. *)
Fixpoint answered {W V} (E : Env W V) (w : W) (evs : list Event) (w' : W)
  : Prop :=
  match evs with
  | [] => w' = w
  | ev :: rest =>
      reply ev = fst (respond E (call ev) w)
      /\ answered E (snd (respond E (call ev) w)) rest w'
  end.

(** A computation whose runs add to the log what the collaborators
    answered, and nothing else, and leave the world where they left it. *)
Definition asks {W V A} (E : Env W V) (m : M W A) : Prop :=
  forall st a st',
    m st = Some (a, st') ->
    exists evs, trace st' = (trace st ++ evs)%list
                /\ answered E (world st) evs (world st').


(** The calls that load a chart and fetch what it depends on. *)
Definition chartLoading (c : Call) : bool :=
  match c with
  | ChartutilLoad _ | ChartutilLoadRequirements _ | ManagerUpdate => true
  | _ => false
  end.


(** What a call that returns a release makes of its reply. *)
Definition releaseResult (r : Reply) : option Release * error :=
  match err_of r with
  | Some _ => (None, err_of r)
  | None => (release_of r, None)
  end.


(** The one call [InstallChartByPath] makes for a release once it knows
    whether the release exists: an upgrade of the release when it does, an
    install under its name when it does not, both waiting, with the
    deployment timeout of 600 seconds and the payload [bytes]. *)
Definition upsertCall (w : HelmClientWrapper)
           (releaseName releaseNamespace chartPath : string) (chart : Chart)
           (existing : bool) (bytes : string) : Call :=
  if existing then
    UpdateRelease (Client w) releaseName chartPath
      {| UpgradeTimeout := 600;
         UpdateValueOverrides := bytes;
         ReuseValues := false;
         UpgradeWait := true |}
  else
    InstallReleaseFromChart (Client w) chart releaseNamespace
      {| InstallTimeout := 600;
         ValueOverrides := bytes;
         ReleaseName := releaseName;
         InstallReuseName := false;
         InstallWait := true |}.

(** The calls of [InstallChartByPath] from the existence check on, with
    their replies, and what it returns.  [h] is the reply to the history
    query.  A failure of the query other than release-not-found ends the
    run with that error.  Otherwise the release exists exactly when the
    query succeeded; a value-override set that is there is marshalled and
    a marshalling error ends the run; a set that is absent is the empty
    payload; then the one call of [upsertCall] is made and its reply
    decides the result. *)
Definition upsertShape {W V} (E : Env W V) (w : HelmClientWrapper)
           (releaseName releaseNamespace chartPath : string) (chart : Chart)
           (values : option V) (res : option Release * error)
           (post : list Event) : Prop :=
  exists h,
    let query := Build_Event (ReleaseHistory (Client w) releaseName 1) h in
    let sent (bytes : string) :=
      exists r,
        post = [query;
                Build_Event (upsertCall w releaseName releaseNamespace chartPath
                                        chart (is_nil (err_of h)) bytes) r]
        /\ res = releaseResult r in
    let marshalled :=
      match values with
      | None => sent ""
      | Some v =>
          match yaml_Marshal E v with
          | (bytes, None) => sent bytes
          | (_, Some e) => post = [query] /\ res = (None, Some e)
          end
      end in
    match err_of h with
    | None => marshalled
    | Some text =>
        if Contains text (ErrReleaseNotFound E releaseName)
        then marshalled
        else post = [query] /\ res = (None, Some text)
    end.

(** The readiness test of the poll. *)
Definition ready (d : Deployment) : bool := ReadyReplicas d =? Replicas d.

(** The deployments the polls of a log saw. *)
Definition polls (evs : list Event) : list Deployment :=
  flat_map (fun ev => match call ev with
                      | DeploymentsGet _ _ => [deployment_of (reply ev)]
                      | _ => []
                      end) evs.

(** The time a log spent sleeping. *)
Definition slept (evs : list Event) : Duration :=
  fold_right (fun ev total => match call ev with
                              | TimeSleep d => d + total
                              | _ => total
                              end) 0 evs.

(** The calls of the wait: reading the Tiller deployment, sleeping one
    interval, and the progress log. *)
Definition waitCall (privateConfig : PrivateConfig) (c : Call) : bool :=
  match c with
  | DeploymentsGet ns name =>
      String.eqb ns (Cluster_TillerNamespace privateConfig)
      && String.eqb name "tiller-deploy"
  | TimeSleep d => d =? 5 * Second
  | LogStartWait _ | LogStopWait | LogDone _ => true
  | _ => false
  end.

(** The polls of a wait: either a ready deployment was seen, after fewer
    than [bound] polls that were not and one sleep for each of those; or
    [bound] polls saw none ready, with one sleep for each. *)
Definition pollOutcome (bound : nat) (evs : list Event) : Prop :=
  (exists before d,
      polls evs = (before ++ [d])%list
      /\ ready d = true
      /\ forallb (fun d => negb (ready d)) before = true
      /\ (List.length before < bound)%nat
      /\ slept evs = 5 * Second * Z.of_nat (List.length before))
  \/ (forallb (fun d => negb (ready d)) (polls evs) = true
      /\ List.length (polls evs) = bound
      /\ slept evs = 5 * Second * Z.of_nat bound).

(** The order of the calls of a wait: a poll that does not see the
    deployment ready is followed by a sleep and then by the rest of the
    wait; a poll that sees it ready is the last call. *)
Fixpoint inTurns (evs : list Event) : bool :=
  match evs with
  | [] => true
  | poll :: after =>
      match call poll with
      | DeploymentsGet _ _ =>
          match after with
          | [] => ready (deployment_of (reply poll))
          | pause :: rest =>
              negb (ready (deployment_of (reply poll)))
              && match call pause with
                 | TimeSleep _ => inTurns rest
                 | _ => false
                 end
          end
      | _ => false
      end
  end.

(** The calls of the service-account step of an install. *)
Definition accountCall (c : Call) : bool :=
  match c with
  | ServiceAccountsGet _ _ | ServiceAccountsCreate _ _ => true
  | _ => false
  end.

(** Whether a log holds the start of the readiness wait. *)
Definition waitStarted (evs : list Event) : bool :=
  existsb (fun c => match c with
                    | LogStartWait message =>
                        String.eqb message "Waiting for Tiller server to start"
                    | _ => false
                    end) (map call evs).

(** The two calls whose error [ensureTiller] returns instead of going on
    to the readiness wait: the creation of the service account and the
    upgrade of Tiller. *)
Definition decidesWait (c : Call) : bool :=
  match c with
  | ServiceAccountsCreate _ _ | InstallerUpgrade _ => true
  | _ => false
  end.

(** The error of the first of these calls in a log that failed. *)
Definition refusal (evs : list Event) : error :=
  match find (fun ev => decidesWait (call ev) && negb (is_nil (err_of (reply ev))))
             evs with
  | Some ev => err_of (reply ev)
  | None => None
  end.

(** The first [n] turns of a loop: the state the loop is in after them
    ([inl]), or what it left with before ([inr]). *)
Fixpoint turns {W X A} (n : nat) (body : X -> M W (X + A)) (s : X)
  : M W (X + A) :=
  match n with
  | O => ret (inl s)
  | S n' =>
      r <- body s ;;
      match r with
      | inl s' => turns n' body s'
      | inr a => ret (inr a)
      end
  end.

(** The client [NewClient] builds on a tunnel. *)
Definition clientOn (tunnel : Tunnel) : HelmClient :=
  {| Host := "127.0.0.1:" ++ Itoa (tunnel_Local tunnel);
     ConnectTimeout := 5 * Second |}.

(** The repositories a log refreshed, the errors of the refreshes that
    failed, and the errors it logged. *)
Definition downloads (evs : list Event) : list ChartRepository :=
  flat_map (fun ev => match call ev with
                      | DownloadIndexFile re _ => [re]
                      | _ => []
                      end) evs.

Definition downloadFailures (evs : list Event) : list string :=
  flat_map (fun ev => match call ev, err_of (reply ev) with
                      | DownloadIndexFile _ _, Some err => [err]
                      | _, _ => []
                      end) evs.

Definition logged (evs : list Event) : list string :=
  flat_map (fun ev => match call ev with
                      | LogError err _ => [err]
                      | _ => []
                      end) evs.

Definition refreshCall (c : Call) : bool :=
  match c with
  | DownloadIndexFile _ _ | LogError _ _ => true
  | _ => false
  end.

Definition constructCall (c : Call) : bool :=
  match c with
  | NewChartRepository _ => true
  | _ => false
  end.

(** Goroutines: how many have not passed [wg.Done()], whose download is
    over, and which errors wait to be logged. *)
Definition exited (x : Goroutine) : bool :=
  match x with GExited _ => true | _ => false end.

Definition active (gs : list Goroutine) : nat :=
  list_sum (map (fun x => if exited x then 0 else 1)%nat gs).

Definition refreshed (gs : list Goroutine) : list ChartRepository :=
  flat_map (fun x => match x with
                     | GStart _ => []
                     | GLog re _ | GReturn re | GExited re => [re]
                     end) gs.

Definition toLog (gs : list Goroutine) : list string :=
  flat_map (fun x => match x with GLog _ err => [err] | _ => [] end) gs.

(** What holds of the group at every point of every run that starts with
    [repos] to refresh and the log [tr0]. *)
Record Joined {W} (repos : list ChartRepository) (tr0 : list Event)
       (g : Group (W := W)) (evs : list Event) : Prop := {
  joined_trace : trace (shared g) = (tr0 ++ evs)%list;
  joined_calls : forallb refreshCall (map call evs) = true;
  joined_repos :
    (map repo_of_goroutine (goroutines g) ++ toLaunch g)%list = repos;
  joined_counter : wg g = Z.of_nat (active (goroutines g));
  joined_returned : returned g = true -> toLaunch g = [] /\ wg g = 0;
  joined_downloads : Permutation (downloads evs) (refreshed (goroutines g));
  joined_logged :
    Permutation (downloadFailures evs) (logged evs ++ toLog (goroutines g))
}.

(** The replies to the attempts at a tunnel, and whether a reply is a
    failure. *)
Definition tunnelReplies (evs : list Event) : list Reply :=
  flat_map (fun ev => match call ev with
                      | PortforwarderNew _ _ => [reply ev]
                      | _ => []
                      end) evs.

Definition failed (r : Reply) : bool := negb (is_nil (err_of r)).

(** The calls of the tunnel retry: an attempt in Tiller's namespace, or
    one interval of sleep. *)
Definition tunnelCall (privateConfig : PrivateConfig) (kubeconfig : RestConfig)
           (c : Call) : bool :=
  match c with
  | PortforwarderNew ns k =>
      String.eqb ns (Cluster_TillerNamespace privateConfig)
      && String.eqb k kubeconfig
  | TimeSleep d => d =? 5 * Second
  | _ => false
  end.

(** The calls that change the cluster. *)
Definition clusterWrite (c : Call) : bool :=
  match c with
  | ServiceAccountsCreate _ _ | RolesCreate _ _ | RoleBindingsCreate _ _
  | DeploymentsDelete _ _ | ServiceAccountsDelete _ _ | RolesDelete _ _
  | RoleBindingsDelete _ _ | InstallerInstall _ | InstallerUpgrade _ => true
  | _ => false
  end.

Definition writes (evs : list Event) : list Call :=
  filter clusterWrite (map call evs).

(** Resources of the cluster API by kind, namespace and name: those a log
    created and those it deleted. *)
Inductive Kind := KDeployment | KServiceAccount | KRole | KRoleBinding.

Definition created (evs : list Event) : list (Kind * string * string) :=
  flat_map (fun ev => match call ev with
                      | ServiceAccountsCreate ns sa =>
                          [(KServiceAccount, ns, Name (sa_ObjectMeta sa))]
                      | RolesCreate ns r => [(KRole, ns, Name (role_ObjectMeta r))]
                      | RoleBindingsCreate ns rb =>
                          [(KRoleBinding, ns, Name (rb_ObjectMeta rb))]
                      | _ => []
                      end) evs.


(** The service account and the installer options [ensureTiller] builds. *)
Definition tillerAccount (privateConfig : PrivateConfig) : ServiceAccount :=
  {| sa_ObjectMeta := {| Name := tillerServiceAccountName;
                         Namespace := Cluster_TillerNamespace privateConfig |} |}.

Definition tillerInstallOptions (privateConfig : PrivateConfig) : Options :=
  {| opt_Namespace := Cluster_TillerNamespace privateConfig;
     MaxHistory := 10;
     ImageSpec := "gcr.io/kubernetes-helm/tiller:v2.9.1";
     opt_ServiceAccount := tillerServiceAccountName |}.

Definition tillerUpgradeOptions (privateConfig : PrivateConfig) : Options :=
  {| opt_Namespace := Cluster_TillerNamespace privateConfig;
     MaxHistory := 10;
     ImageSpec := "";
     opt_ServiceAccount := tillerServiceAccountName |}.

(** The five calls of an install once the service account is there, with
    their replies. *)
Definition grantEvents (privateConfig : PrivateConfig) (r1 r2 ri r3 r4 : Reply)
  : list Event :=
  [ Build_Event (RolesCreate (Cluster_TillerNamespace privateConfig)
       (grantRole "tiller-config-manager" (Cluster_TillerNamespace privateConfig)
                  configManagerRules)) r1;
    Build_Event (RoleBindingsCreate (Cluster_TillerNamespace privateConfig)
       (grantRoleBinding "tiller-config-manager"
          (Cluster_TillerNamespace privateConfig)
          (Cluster_TillerNamespace privateConfig)
          (grantRole "tiller-config-manager" (Cluster_TillerNamespace privateConfig)
                     configManagerRules))) r2;
    Build_Event (InstallerInstall (tillerInstallOptions privateConfig)) ri;
    Build_Event (RolesCreate (Release_Namespace privateConfig)
       (grantRole "devspace-tiller" (Release_Namespace privateConfig)
                  defaultPolicyRules)) r3;
    Build_Event (RoleBindingsCreate (Release_Namespace privateConfig)
       (grantRoleBinding "devspace-tiller" (Release_Namespace privateConfig)
          (Cluster_TillerNamespace privateConfig)
          (grantRole "devspace-tiller" (Release_Namespace privateConfig)
                     defaultPolicyRules))) r4 ].

(** The calls of the branch "Tiller is not there" and what it ends with:
    the service account is looked up and created only when the lookup
    fails; a failed creation ends the branch with its error; otherwise
    the five calls follow and the branch ends with nil. *)
Definition installShape (privateConfig : PrivateConfig) (res : error)
           (inst : list Event) : Prop :=
  exists g,
    let lookup := Build_Event
                    (ServiceAccountsGet (Cluster_TillerNamespace privateConfig)
                                        tillerServiceAccountName) g in
    match err_of g with
    | None =>
        res = None
        /\ exists r1 r2 ri r3 r4,
            inst = lookup :: grantEvents privateConfig r1 r2 ri r3 r4
    | Some _ =>
        exists c,
          let creation := Build_Event
                            (ServiceAccountsCreate
                               (Cluster_TillerNamespace privateConfig)
                               (tillerAccount privateConfig)) c in
          match err_of c with
          | Some e => res = Some e /\ inst = [lookup; creation]
          | None =>
              res = None
              /\ exists r1 r2 ri r3 r4,
                  inst = lookup :: creation
                         :: grantEvents privateConfig r1 r2 ri r3 r4
          end
    end.

(** ** Test doubles

    Worlds that count the calls made so far, answered by a script. *)

(** The double-quote character. *)
Definition quote : string := String (ascii_of_nat 34) EmptyString.

(** [%q] of [fmt] on a name of ASCII characters: the name between double
    quotes, with a backslash before a double quote and before a
    backslash, the escapes [\a \b \t \n \v \f \r] for those control
    characters and [\x] with two hexadecimal digits for the other ones.
    Bytes from 128 on are left as they are, which is what [%q] does with
    printable characters in valid UTF-8. *)
Definition hexDigit (n : nat) : ascii :=
  nth n (list_ascii_of_string "0123456789abcdef") "0"%char.

Definition escaped (a : ascii) : string :=
  let n := nat_of_ascii a in
  let esc (c : string) := String (ascii_of_nat 92) c in
  if (n =? 34)%nat then esc quote
  else if (n =? 92)%nat then esc (esc "")
  else if (n =? 7)%nat then esc "a"
  else if (n =? 8)%nat then esc "b"
  else if (n =? 9)%nat then esc "t"
  else if (n =? 10)%nat then esc "n"
  else if (n =? 11)%nat then esc "v"
  else if (n =? 12)%nat then esc "f"
  else if (n =? 13)%nat then esc "r"
  else if ((n <? 32) || (n =? 127))%nat
       then esc (String "x" (String (hexDigit (n / 16))
                                    (String (hexDigit (n mod 16)) "")))
  else String a "".

Fixpoint escapedAll (name : string) : string :=
  match name with
  | EmptyString => ""
  | String a rest => escaped a ++ escapedAll rest
  end.

Definition quoted (name : string) : string := quote ++ escapedAll name ++ quote.

(** [filepath.Dir] on a clean path: all but the last element of the
    path, ["."] for a path without separator and ["/"] for an element
    right under the root.  [beforeLastSlash] is the text before the last
    separator, when there is one. *)
Fixpoint beforeLastSlash (path : string) : option string :=
  match path with
  | EmptyString => None
  | String a rest =>
      match beforeLastSlash rest with
      | Some d => Some (String a d)
      | None => if Ascii.eqb a "/" then Some "" else None
      end
  end.

Definition dirOf (path : string) : string :=
  match beforeLastSlash path with
  | Some EmptyString => "/"
  | Some d => d
  | None => "."
  end.

Definition exampleConfig : PrivateConfig :=
  {| Cluster_TillerNamespace := "tiller-ns"; Release_Namespace := "apps" |}.

Definition stableEntry : Entry :=
  {| entry_Name := "stable";
     entry_URL := "https://kubernetes-charts.storage.googleapis.com";
     entry_Cache := stableRepoCachePath |}.

(** Every collaborator succeeds. *)
Definition allFine (c : Call) : Reply :=
  match c with
  | ConfigLoadConfig => RConfig exampleConfig
  | KubectlGetClientConfig => RRest "kubeconfig" None
  | DeploymentsGet _ _ => RDeployment {| ReadyReplicas := 1; Replicas := 1 |} None
  | PortforwarderNew _ _ => RTunnel {| tunnel_Local := 44134 |} None
  | UpdateRelease _ n _ _ =>
      RRelease (Some {| rel_Name := n; rel_Namespace := "apps" |}) None
  | InstallReleaseFromChart _ _ ns o =>
      RRelease (Some {| rel_Name := ReleaseName o; rel_Namespace := ns |}) None
  | ChartutilLoad p => RChart {| chart_Name := p; chart_Dependencies := [] |} None
  | DownloadTo ref _ dest => RString (dest ++ "/" ++ ref) None
  | HomedirDir => RString "/home/dev" None
  | LoadRepositoriesFile _ => REntries [stableEntry] None
  | NewChartRepository cfg => RRepo {| Config := cfg |} None
  | TimeSleep _ | LogStartWait _ | LogStopWait | LogDone _ | LogError _ _ => RUnit
  | _ => RErr None
  end.

Definition scripted (script : Call -> nat -> Reply) : Env nat string :=
  {| respond := fun c n => (script c n, S n);
     ErrReleaseNotFound :=
       fun name => "release: " ++ quoted name ++ " not found";
     yaml_Marshal := fun v => (v, None);
     filepath_Dir := dirOf;
     Home_RepositoryFile := fun h => h ++ "/repository/repositories.yaml";
     Home_String := fun h => h;
     Home_Archive := fun h => h ++ "/cache/archive" |}.

Definition start : St nat := {| world := O; trace := [] |}.

Definition exampleWrapper : HelmClientWrapper :=
  {| Client := {| Host := "127.0.0.1:44134"; ConnectTimeout := 5 * Second |};
     Settings_Home := "/home/dev/.devspace/helm" |}.

(** The cluster refuses to delete the service account and the second
    role. *)
Definition teardownRefused (c : Call) (n : nat) : Reply :=
  match c with
  | ServiceAccountsDelete _ _ => RErr (Some "serviceaccounts is forbidden")
  | RolesDelete _ "devspace-tiller" => RErr (Some "roles not found")
  | _ => allFine c
  end.

(** The cluster forbids creating roles. *)
Definition createForbidden (c : Call) (n : nat) : Reply :=
  match c with
  | RolesCreate _ _ => RErr (Some "roles.rbac.authorization.k8s.io is forbidden")
  | _ => allFine c
  end.

(** Tiller knows no release. *)
Definition noRelease (c : Call) (n : nat) : Reply :=
  match c with
  | ReleaseHistory _ name _ =>
      RErr (Some ("rpc error: code = Unknown desc = release: "
                  ++ quote ++ name ++ quote ++ " not found"))
  | _ => allFine c
  end.

(** The connection to Tiller is lost. *)
Definition rpcUnavailable (c : Call) (n : nat) : Reply :=
  match c with
  | ReleaseHistory _ _ _ => RErr (Some "rpc error: code = Unavailable")
  | _ => allFine c
  end.

(** The deployment exists and never becomes ready. *)
Definition neverReady (c : Call) (n : nat) : Reply :=
  match c with
  | DeploymentsGet _ _ => RDeployment {| ReadyReplicas := 0; Replicas := 1 |} None
  | _ => allFine c
  end.

(** The deployment exists and is ready from the tenth call on. *)
Definition readyLater (c : Call) (n : nat) : Reply :=
  match c with
  | DeploymentsGet _ _ =>
      RDeployment {| ReadyReplicas := if (n <? 10)%nat then 0 else 1;
                     Replicas := 1 |} None
  | _ => allFine c
  end.

(** Tiller's RPC endpoint fails every call. *)
Definition rpcDown (c : Call) (n : nat) : Reply :=
  match c with
  | ListReleases _ _ => RErr (Some "context deadline exceeded")
  | _ => allFine c
  end.



(** The registry lists two repositories; the index of the second cannot
    be downloaded. *)
Definition secondDownloadFails (c : Call) (n : nat) : Reply :=
  match c with
  | LoadRepositoriesFile _ =>
      REntries [stableEntry;
                {| entry_Name := "incubator";
                   entry_URL := "https://charts.example.org/incubator";
                   entry_Cache := "incubator-index.yaml" |}] None
  | DownloadIndexFile re _ =>
      if String.eqb (entry_Name (Config re)) "incubator"
      then RErr (Some "Get https://charts.example.org/incubator: EOF")
      else RErr None
  | _ => allFine c
  end.

(** No pod of Tiller can be reached. *)
Definition tunnelDown (c : Call) (n : nat) : Reply :=
  match c with
  | PortforwarderNew _ _ =>
      RTunnel {| tunnel_Local := 0 |} (Some "could not find a ready tiller pod")
  | _ => allFine c
  end.

(** A cluster without Tiller and without its service account; once
    installed, the deployment is ready. *)
Definition freshCluster (c : Call) (n : nat) : Reply :=
  match c with
  | DeploymentsGet _ _ =>
      if (n =? 0)%nat
      then RDeployment {| ReadyReplicas := 0; Replicas := 0 |}
                       (Some "deployments.extensions tiller-deploy not found")
      else RDeployment {| ReadyReplicas := 1; Replicas := 1 |} None
  | ServiceAccountsGet _ _ =>
      RErr (Some "serviceaccounts devspace-tiller not found")
  | _ => allFine c
  end.

(** The calls of [NewClient] after the home directory is known, with
    their replies: the three directories, the look at the registry file,
    the default registry written when that look fails, the look at the
    cache of the stable repository, and the update of the repositories
    when that look fails. *)
Definition homeShape {W V} (E : Env W V) (homeDir : string) (rest : list Event)
  : Prop :=
  let helmHomePath := homeDir ++ "/.devspace/helm" in
  let repoPath := helmHomePath ++ "/repository" in
  let repoFile := repoPath ++ "/repositories.yaml" in
  let stableRepoCachePathAbs := helmHomePath ++ "/" ++ stableRepoCachePath in
  exists m1 m2 m3 s1 s2 written synced,
    rest = ([ Build_Event (MkdirAll (helmHomePath ++ "/cache")) m1;
              Build_Event (MkdirAll repoPath) m2;
              Build_Event (MkdirAll (filepath_Dir E stableRepoCachePathAbs)) m3;
              Build_Event (Stat repoFile) s1 ]
            ++ written
            ++ [ Build_Event (Stat stableRepoCachePathAbs) s2 ]
            ++ synced)%list
    /\ match err_of s1 with
       | Some _ =>
           exists w, written = [Build_Event (WriteToFile defaultRepositories
                                                         repoFile) w]
       | None => written = []
       end
    /\ match err_of s2 with
       | Some _ =>
           exists l more,
             synced = Build_Event (LoadRepositoriesFile
                                     (Home_RepositoryFile E helmHomePath)) l
                      :: more
       | None => synced = []
       end.

(** The calls of the block that fetches what a chart depends on, with
    their replies, and what the block leaves: the chart to go on with and
    the error to return.  A chart that lists nothing makes no call. *)
Definition depShape (chartPath : string) (chart0 : Chart) (c : Chart * error)
           (evs : list Event) : Prop :=
  if (0 <? List.length (chart_Dependencies chart0))%nat then
    exists q,
      let req := Build_Event (ChartutilLoadRequirements chart0) q in
      match err_of q with
      | Some _ => evs = [req] /\ c = (chart0, err_of q)
      | None =>
          exists m,
            let upd := Build_Event ManagerUpdate m in
            match err_of m with
            | Some _ => evs = [req; upd] /\ c = (chart0, err_of m)
            | None =>
                exists c1,
                  evs = [req; upd; Build_Event (ChartutilLoad chartPath) c1]
                  /\ c = (chart_of c1, err_of c1)
            end
      end
  else evs = [] /\ c = (chart0, None).

(** The chart an install call carries. *)
Definition chartsInstalled (evs : list Event) : list Chart :=
  flat_map (fun ev => match call ev with
                      | InstallReleaseFromChart _ chart _ _ => [chart]
                      | _ => []
                      end) evs.

(** A chart with two dependencies loads, but its dependencies cannot be
    fetched. *)
Definition dependenciesUnmet (c : Call) (n : nat) : Reply :=
  match c with
  | ChartutilLoad p =>
      RChart {| chart_Name := p; chart_Dependencies := ["redis"; "mysql"] |} None
  | ManagerUpdate => RErr (Some "no repository definition for redis")
  | _ => noRelease c n
  end.

(** The Tiller deployment is found, and every later lookup fails and
    returns the empty deployment with its error. *)
Definition lookupLost (c : Call) (n : nat) : Reply :=
  match c with
  | DeploymentsGet _ _ =>
      if (n =? 0)%nat
      then RDeployment {| ReadyReplicas := 0; Replicas := 1 |} None
      else RDeployment {| ReadyReplicas := 0; Replicas := 0 |}
                       (Some "connection refused")
  | _ => allFine c
  end.

(** * Properties *)

(** ** The monad *)

Lemma bind_Some {W A B} (m : M W A) (k : A -> M W B) st a st' :
  m st = Some (a, st') -> bind m k st = k a st'.
Proof. intros H. unfold bind. now rewrite H. Qed.

Lemma perform_eq {W V} (E : Env W V) c st :
  perform E c st = Some (call_world E c st).
Proof. reflexivity. Qed.

Lemma call_world_trace {W V} (E : Env W V) c st :
  trace (snd (call_world E c st))
  = (trace st ++ [Build_Event c (fst (call_world E c st))])%list.
Proof. unfold call_world. destruct (respond E c (world st)); reflexivity. Qed.

Lemma call_world_call {W V} (E : Env W V) c st :
  exists r st', call_world E c st = (r, st')
                /\ trace st' = (trace st ++ [Build_Event c r])%list.
Proof.
  unfold call_world. destruct (respond E c (world st)) as [r w].
  eexists _, _. split; reflexivity.
Qed.

(** One call at the head of a computation: name its reply, the state after
    it and what it added to the log. *)
Ltac run_call r st' T :=
  unfold bind at 1; rewrite perform_eq;
  match goal with
  | |- context [call_world ?E ?c ?st] =>
      destruct (call_world_call E c st) as (r & st' & -> & T)
  end.

(** ** The log is what the collaborators answered *)

Lemma answered_app {W V} (E : Env W V) evs1 evs2 w w1 w2 :
  answered E w evs1 w1 -> answered E w1 evs2 w2 ->
  answered E w (evs1 ++ evs2) w2.
Proof.
  revert w. induction evs1 as [|ev evs1 IH]; simpl; intros w H1 H2.
  - now subst w1.
  - destruct H1 as [Hr H1]. split; [exact Hr | exact (IH _ H1 H2)].
Qed.

Lemma asks_ret {W V A} (E : Env W V) (a : A) : asks E (ret a).
Proof.
  intros st x st' H. injection H as <- <-.
  exists []. rewrite app_nil_r. split; reflexivity.
Qed.

Lemma asks_perform {W V} (E : Env W V) (c : Call) : asks E (perform E c).
Proof.
  intros st r st' H. rewrite perform_eq in H. unfold call_world in H.
  destruct (respond E c (world st)) as [r0 w0] eqn:Hr.
  injection H as <- <-. exists [Build_Event c r0]. simpl.
  rewrite Hr. repeat split.
Qed.

Lemma asks_bind {W V A B} (E : Env W V) (m : M W A) (k : A -> M W B) :
  asks E m -> (forall a, asks E (k a)) -> asks E (bind m k).
Proof.
  intros Hm Hk st b st' H. unfold bind in H.
  destruct (m st) as [[a st1]|] eqn:Hrun; [|discriminate].
  destruct (Hm _ _ _ Hrun) as (evs1 & T1 & A1).
  destruct (Hk a _ _ _ H) as (evs2 & T2 & A2).
  exists (evs1 ++ evs2)%list. split.
  - rewrite T2, T1, <- app_assoc. reflexivity.
  - exact (answered_app E _ _ _ _ _ A1 A2).
Qed.

Lemma asks_loop {W V X A} (E : Env W V) (body : X -> M W (X + A)) :
  (forall s, asks E (body s)) ->
  forall fuel s, asks E (loop fuel body s).
Proof.
  intros Hbody fuel. induction fuel as [|fuel IH]; intros s.
  - intros st a st' H. discriminate.
  - cbn [loop]. apply asks_bind; [apply Hbody|].
    intros [s'|a]; [apply IH | apply asks_ret].
Qed.

(** The log a run is known to have added is the one the collaborators
    answered. *)
Lemma asks_run {W V A} (E : Env W V) (m : M W A) st a st' evs :
  asks E m -> m st = Some (a, st') -> trace st' = (trace st ++ evs)%list ->
  answered E (world st) evs (world st').
Proof.
  intros Hm Hrun Htr. destruct (Hm _ _ _ Hrun) as (evs' & Htr' & Hans).
  rewrite Htr in Htr'. apply app_inv_head in Htr'. now subst evs'.
Qed.

(** Computations built from [perform], [ret], [bind] and [loop] by case
    analysis. *)
Ltac asks_all :=
  cbv zeta;
  repeat first
    [ apply asks_ret
    | apply asks_perform
    | apply asks_bind; [|intros ?]
    | apply asks_loop; intros ?
    | match goal with
      | |- asks _ (match ?x with _ => _ end) => destruct x
      end ].

Lemma ensureRoleBinding_asks {W V} (E : Env W V) name ns tns rules :
  asks E (ensureRoleBinding E name ns tns rules).
Proof. unfold ensureRoleBinding. asks_all. Qed.

Lemma ReleaseExists_asks {W V} (E : Env W V) w name :
  asks E (ReleaseExists E w name).
Proof. unfold ReleaseExists. asks_all. Qed.

Lemma waitForTiller_asks {W V} (E : Env W V) fuel cfg :
  asks E (waitForTiller E fuel cfg).
Proof. unfold waitForTiller, tillerWaitBody. asks_all. Qed.

Lemma installTiller_asks {W V} (E : Env W V) cfg sa opts :
  asks E (installTiller E cfg sa opts).
Proof.
  unfold installTiller.
  repeat first
    [ apply ensureRoleBinding_asks
    | apply asks_ret | apply asks_perform
    | apply asks_bind; [|intros ?]
    | match goal with
      | |- asks _ (match ?x with _ => _ end) => destruct x
      end ].
Qed.

Lemma ensureTiller_asks {W V} (E : Env W V) fuel cfg upgrade :
  asks E (ensureTiller E fuel cfg upgrade).
Proof.
  unfold ensureTiller. cbv zeta.
  repeat first
    [ apply installTiller_asks | apply waitForTiller_asks
    | apply asks_ret | apply asks_perform
    | apply asks_bind; [|intros ?]
    | match goal with
      | |- asks _ (match ?x with _ => _ end) => destruct x
      end ].
Qed.

Lemma InstallChartByPath_asks {W V} (E : Env W V) w name ns path values :
  asks E (InstallChartByPath E w name ns path values).
Proof.
  unfold InstallChartByPath, resolveDependencies, ReleaseExists. asks_all.
Qed.

(** ** DeleteTiller *)

Lemma append_empty_r (s : string) : s ++ "" = s.
Proof. induction s; simpl; congruence. Qed.

Lemma append_assoc (s t u : string) : (s ++ t) ++ u = s ++ t ++ u.
Proof. induction s; simpl; congruence. Qed.




Lemma append_err_failures errs c r :
  append_err errs (err_of r) = (errs ++ failures [Build_Event c r])%list.
Proof.
  unfold append_err, failures. simpl.
  destruct (err_of r); simpl; now rewrite ?app_nil_r.
Qed.

Lemma failures_app tr1 tr2 :
  failures (tr1 ++ tr2) = (failures tr1 ++ failures tr2)%list.
Proof. unfold failures. now rewrite flat_map_app. Qed.





(** ** ensureRoleBinding *)

Lemma ensureRoleBinding_run {W V} (E : Env W V) name ns tns rules st :
  exists r1 r2 st',
    ensureRoleBinding E name ns tns rules st = Some (None, st')
    /\ trace st'
       = (trace st
          ++ [Build_Event (RolesCreate ns (grantRole name ns rules)) r1;
              Build_Event (RoleBindingsCreate ns
                (grantRoleBinding name ns tns (grantRole name ns rules))) r2])%list.
Proof.
  unfold ensureRoleBinding, bind. rewrite perform_eq.
  destruct (call_world_call E (RolesCreate ns (grantRole name ns rules)) st)
    as (r1 & st1 & -> & T1).
  rewrite perform_eq.
  destruct (call_world_call E (RoleBindingsCreate ns
              (grantRoleBinding name ns tns (grantRole name ns rules))) st1)
    as (r2 & st2 & -> & T2).
  exists r1, r2, st2. split; [reflexivity|].
  rewrite T2, T1, <- app_assoc. reflexivity.
Qed.

(** C3: what [ensureRoleBinding] does with the answers of the cluster.
    For every grant it asks for the creation of the role and then of the
    role-binding, each reply being the one the cluster gives in the world
    the call is made in, and it returns nil whatever the two replies are:
    neither an already-exists error nor any other creation error, a
    refusal for lack of permission included, reaches the caller. *)
Theorem ensureRoleBinding_creates_pair_and_returns_nil :
  forall (W V : Type) (E : Env W V) (name namespace tillerNamespace : string)
         (rules : list PolicyRule) (st : St W),
  let role := grantRole name namespace rules in
  let rolebinding := grantRoleBinding name namespace tillerNamespace role in
  let first := respond E (RolesCreate namespace role) (world st) in
  let second := respond E (RoleBindingsCreate namespace rolebinding) (snd first) in
  exists st',
    ensureRoleBinding E name namespace tillerNamespace rules st = Some (None, st')
    /\ trace st'
       = (trace st
          ++ [Build_Event (RolesCreate namespace role) (fst first);
              Build_Event (RoleBindingsCreate namespace rolebinding)
                          (fst second)])%list
    /\ world st' = snd second.
Proof.
  intros W V E name namespace tillerNamespace rules st role rolebinding
         first second.
  subst second first. unfold ensureRoleBinding, bind, perform, call_world, ret.
  fold role. fold rolebinding.
  destruct (respond E (RolesCreate namespace role) (world st)) as [r1 w1].
  cbn [world trace fst snd].
  destruct (respond E (RoleBindingsCreate namespace rolebinding) w1) as [r2 w2].
  cbn [fst snd]. eexists. split; [reflexivity|]. cbn [world trace].
  rewrite <- app_assoc. split; reflexivity.
Qed.

(** C3 as stated fails: the role creation is refused with a
    permission error, which is not "already exists", and
    [ensureRoleBinding] returns nil all the same. *)
Lemma ensureRoleBinding_swallows_permission_error :
  exists st',
    ensureRoleBinding (scripted createForbidden) "devspace-tiller" "apps"
                      "tiller-ns" defaultPolicyRules start = Some (None, st')
    /\ failures (trace st') = ["roles.rbac.authorization.k8s.io is forbidden"].
Proof. eexists. split; reflexivity. Qed.




(** ** ReleaseExists *)

Lemma prefix_spec (p s : string) :
  String.prefix p s = true <-> exists rest, s = p ++ rest.
Proof.
  revert s. induction p as [|a p IH]; intros s; simpl.
  - destruct s; split; eauto.
  - destruct s as [|b s]; simpl.
    + split; [discriminate | intros [rest H]; discriminate].
    + destruct (ascii_dec a b) as [->|Hne].
      * rewrite IH. split; intros [rest H]; exists rest; congruence.
      * split; [discriminate|]. intros [rest H]. congruence.
Qed.

Lemma Contains_nil (substr : string) :
  Contains "" substr = String.prefix substr "".
Proof. destruct substr; reflexivity. Qed.

Lemma Contains_cons (a : ascii) (s substr : string) :
  Contains (String a s) substr
  = String.prefix substr (String a s) || Contains s substr.
Proof.
  change (Contains (String a s) substr)
    with (if String.prefix substr (String a s) then true else Contains s substr).
  now destruct (String.prefix substr (String a s)).
Qed.

(** [Contains] is [strings.Contains]: the text holds the other as a
    run of consecutive characters. *)
Lemma Contains_spec (s substr : string) :
  Contains s substr = true <-> exists before after, s = before ++ substr ++ after.
Proof.
  induction s as [|a s IH].
  - rewrite Contains_nil, prefix_spec. split.
    + intros [rest H]. exists "", rest. exact H.
    + intros (before & after & H).
      destruct before; simpl in H; [eauto | discriminate].
  - rewrite Contains_cons, orb_true_iff, prefix_spec, IH. split.
    + intros [[rest H] | (before & after & ->)].
      * exists "", rest. exact H.
      * exists (String a before), after. reflexivity.
    + intros (before & after & H). destruct before as [|b before]; simpl in H.
      * left. eauto.
      * right. inversion H. eauto.
Qed.

(** C5: [ReleaseExists] asks Tiller for the release's history capped at
    one entry and nothing else: its one call is that query, the reply [h]
    is the one the collaborators give to it in the world the function is
    run in, and the world is left as that call leaves it.  When the call
    succeeds it answers [(true, nil)]; when the call fails with an error
    whose text holds the release-not-found text of that release it answers
    [(false, nil)]; when the call fails with any other error it answers
    [false] with that very error. *)
Theorem ReleaseExists_absorbs_only_not_found :
  forall (W V : Type) (E : Env W V) (helmClientWrapper : HelmClientWrapper)
         (releaseName : string) (st : St W),
  exists answer h st',
    ReleaseExists E helmClientWrapper releaseName st = Some (answer, st')
    /\ h = fst (respond E (ReleaseHistory (Client helmClientWrapper)
                                          releaseName 1) (world st))
    /\ world st' = snd (respond E (ReleaseHistory (Client helmClientWrapper)
                                                  releaseName 1) (world st))
    /\ trace st'
       = (trace st
          ++ [Build_Event (ReleaseHistory (Client helmClientWrapper) releaseName 1)
                          h])%list
    /\ answer
       = match err_of h with
         | None => (true, None)
         | Some text =>
             if Contains text (ErrReleaseNotFound E releaseName)
             then (false, None)
             else (false, Some text)
         end.
Proof.
  intros. unfold ReleaseExists, bind. rewrite perform_eq. unfold call_world.
  destruct (respond E (ReleaseHistory (Client helmClientWrapper) releaseName 1)
                    (world st)) as [h w1].
  cbn [fst snd].
  exists (match err_of h with
          | None => (true, None)
          | Some text =>
              if Contains text (ErrReleaseNotFound E releaseName)
              then (false, None)
              else (false, Some text)
          end), h.
  exists (Build_St w1
            (trace st
             ++ [Build_Event (ReleaseHistory (Client helmClientWrapper)
                                             releaseName 1) h])).
  split; [|repeat split].
  destruct (err_of h) as [text|]; [|reflexivity].
  now destruct (Contains text (ErrReleaseNotFound E releaseName)).
Qed.

(** ** InstallChartByPath and InstallChartByName *)


Lemma resolveDependencies_trace {W V} (E : Env W V) chartPath chart0 st :
  exists c evs st',
    resolveDependencies E chartPath chart0 st = Some (c, st')
    /\ trace st' = (trace st ++ evs)%list
    /\ depShape chartPath chart0 c evs.
Proof.
  unfold resolveDependencies, depShape.
  destruct (0 <? List.length (chart_Dependencies chart0))%nat.
  2:{ exists (chart0, None), [], st. rewrite app_nil_r. auto. }
  run_call q st1 T1. destruct (err_of q) as [e|] eqn:Hq.
  { eexists _, [_], st1. split; [reflexivity|]. split; [exact T1|].
    exists q. rewrite Hq. auto. }
  run_call m st2 T2. destruct (err_of m) as [e|] eqn:Hm.
  { eexists _, [_; _], st2. split; [reflexivity|]. split.
    { rewrite T2, T1, <- app_assoc. reflexivity. }
    exists q. rewrite Hq. exists m. rewrite Hm. auto. }
  run_call c1 st3 T3.
  eexists _, [_; _; _], st3. split; [reflexivity|]. split.
  { rewrite T3, T2, T1, <- !app_assoc. reflexivity. }
  exists q. rewrite Hq. exists m. rewrite Hm. exists c1. auto.
Qed.


(** What [InstallChartByPath] returns after its last call: the error of
    the reply, or its release. *)
Lemma releaseResult_ret {W} (r : Reply) (st : St W) :
  match err_of r with
  | Some _ => ret (None, err_of r)
  | None => ret (release_of r, None)
  end st = Some (releaseResult r, st).
Proof. unfold releaseResult. now destruct (err_of r). Qed.

(** C6: every run of [InstallChartByPath] returns, and its log is what
    the collaborators answered.  It loads the chart and what the chart
    depends on, and returns the error of the loading step that failed.
    Once the chart is there it first asks for the history of the release.
    If the release exists, the one call that follows is an upgrade of
    that release with reuse of the previous values off, waiting on, and
    the timeout of 600 seconds, and no install is issued; if the release
    is not found, the one call that follows is an install of the loaded
    chart under that name with reuse of the name off and the same waiting
    and timeout; the reply to that call decides the result.  An absent
    value-override set makes the call carry the empty payload and is no
    error; a set that is there is marshalled first, and a marshalling
    error is returned before any upgrade or install. *)
Theorem InstallChartByPath_upgrades_existing_and_installs_absent :
  forall (W V : Type) (E : Env W V) (helmClientWrapper : HelmClientWrapper)
         (releaseName releaseNamespace chartPath : string) (values : option V)
         (st : St W),
  exists res c0 deps c post st',
    InstallChartByPath E helmClientWrapper releaseName releaseNamespace
                       chartPath values st = Some (res, st')
    /\ trace st'
       = (trace st ++ Build_Event (ChartutilLoad chartPath) c0 :: deps ++ post)%list
    /\ answered E (world st)
                (Build_Event (ChartutilLoad chartPath) c0 :: deps ++ post)
                (world st')
    /\ match err_of c0 with
       | Some e => res = (None, Some e) /\ deps = [] /\ post = []
       | None =>
           depShape chartPath (chart_of c0) c deps
           /\ match snd c with
              | Some e => res = (None, Some e) /\ post = []
              | None =>
                  upsertShape E helmClientWrapper releaseName releaseNamespace
                              chartPath (fst c) values res post
              end
       end.
Proof.
  intros W V E w name ns path values st.
  cut (exists res c0 deps c post st',
    InstallChartByPath E w name ns path values st = Some (res, st')
    /\ trace st'
       = (trace st ++ Build_Event (ChartutilLoad path) c0 :: deps ++ post)%list
    /\ match err_of c0 with
       | Some e => res = (None, Some e) /\ deps = [] /\ post = []
       | None =>
           depShape path (chart_of c0) c deps
           /\ match snd c with
              | Some e => res = (None, Some e) /\ post = []
              | None => upsertShape E w name ns path (fst c) values res post
              end
       end).
  { intros (res & c0 & deps & c & post & st' & Hrun & Htr & Hshape).
    exists res, c0, deps, c, post, st'. split; [exact Hrun|].
    split; [exact Htr|]. split; [|exact Hshape].
    exact (asks_run E _ _ _ _ _ (InstallChartByPath_asks E w name ns path values)
                    Hrun Htr). }
  unfold InstallChartByPath. run_call c0 st0 T0.
  destruct (err_of c0) as [e0|] eqn:H0.
  { eexists _, c0, [], (chart_of c0, None), [], st0. rewrite H0.
    split; [reflexivity|]. split; [exact T0|]. auto. }
  destruct (resolveDependencies_trace E path (chart_of c0) st0)
    as (c & deps & st1 & H1 & T1 & Hdeps).
  rewrite (bind_Some _ _ _ _ _ H1).
  destruct (snd c) as [e1|] eqn:Hc.
  { eexists _, c0, deps, c, [], st1. rewrite H0, Hc.
    split; [reflexivity|]. split.
    { rewrite T1, T0, app_nil_r, <- app_assoc. reflexivity. }
    auto. }
  unfold ReleaseExists. unfold bind at 1. run_call h st2 T2.
  assert (Tq : trace st2
               = (trace st ++ Build_Event (ChartutilLoad path) c0
                  :: deps ++ [Build_Event (ReleaseHistory (Client w) name 1) h])%list).
  { rewrite T2, T1, T0, <- !app_assoc. reflexivity. }
  assert (Hstop : forall res : option Release * Go.error,
    upsertShape E w name ns path (fst c) values res
                [Build_Event (ReleaseHistory (Client w) name 1) h] ->
    exists res' c0' deps' c' post st',
      Some (res, st2) = Some (res', st')
      /\ trace st'
         = (trace st ++ Build_Event (ChartutilLoad path) c0' :: deps' ++ post)%list
      /\ match err_of c0' with
         | Some e => res' = (None, Some e) /\ deps' = [] /\ post = []
         | None =>
             depShape path (chart_of c0') c' deps'
             /\ match snd c' with
                | Some e => res' = (None, Some e) /\ post = []
                | None => upsertShape E w name ns path (fst c') values res' post
                end
         end).
  { intros res Hshape. eexists res, c0, deps, c, [_], st2. rewrite H0, Hc.
    split; [reflexivity|]. split; [exact Tq|]. split; [exact Hdeps | exact Hshape]. }
  assert (Hsent : forall (bytes : string) (r : Reply) (st3 : St W),
    trace st3
    = (trace st2
       ++ [Build_Event (upsertCall w name ns path (fst c) (is_nil (err_of h)) bytes)
                       r])%list ->
    upsertShape E w name ns path (fst c) values (releaseResult r)
      [Build_Event (ReleaseHistory (Client w) name 1) h;
       Build_Event (upsertCall w name ns path (fst c) (is_nil (err_of h)) bytes) r] ->
    exists res' c0' deps' c' post st',
      Some (releaseResult r, st3) = Some (res', st')
      /\ trace st'
         = (trace st ++ Build_Event (ChartutilLoad path) c0' :: deps' ++ post)%list
      /\ match err_of c0' with
         | Some e => res' = (None, Some e) /\ deps' = [] /\ post = []
         | None =>
             depShape path (chart_of c0') c' deps'
             /\ match snd c' with
                | Some e => res' = (None, Some e) /\ post = []
                | None => upsertShape E w name ns path (fst c') values res' post
                end
         end).
  { intros bytes r st3 T3 Hshape.
    eexists (releaseResult r), c0, deps, c, [_; _], st3. rewrite H0, Hc.
    split; [reflexivity|]. split.
    { rewrite T3, Tq, <- !app_assoc. cbn [app].
      rewrite <- !app_assoc. reflexivity. }
    split; [exact Hdeps | exact Hshape]. }
  destruct (err_of h) as [text|] eqn:Hh.
  - destruct (Contains text (ErrReleaseNotFound E name)) eqn:Hnf; unfold ret at 1.
    2:{ apply Hstop. exists h. cbv zeta. rewrite Hh, Hnf. auto. }
    destruct values as [v|].
    + destruct (yaml_Marshal E v) as [bytes [ye|]] eqn:Hy.
      { apply Hstop. exists h. cbv zeta. rewrite Hh, Hnf, Hy. auto. }
      run_call r st3 T3. rewrite releaseResult_ret.
      apply (Hsent bytes r st3 T3). exists h. cbv zeta. rewrite Hh, Hnf, Hy.
      exists r. auto.
    + run_call r st3 T3. rewrite releaseResult_ret.
      apply (Hsent "" r st3 T3). exists h. cbv zeta. rewrite Hh, Hnf.
      exists r. auto.
  - unfold ret at 1. destruct values as [v|].
    + destruct (yaml_Marshal E v) as [bytes [ye|]] eqn:Hy.
      { apply Hstop. exists h. cbv zeta. rewrite Hh, Hy. auto. }
      run_call r st3 T3. rewrite releaseResult_ret.
      apply (Hsent bytes r st3 T3). exists h. cbv zeta. rewrite Hh, Hy.
      exists r. auto.
    + run_call r st3 T3. rewrite releaseResult_ret.
      apply (Hsent "" r st3 T3). exists h. cbv zeta. rewrite Hh.
      exists r. auto.
Qed.


(** ** ensureTiller: the readiness poll *)

Lemma wrap64_small (z : Z) : - 2 ^ 63 <= z < 2 ^ 63 -> wrap64 z = z.
Proof. intros H. unfold wrap64. rewrite Z.mod_small; lia. Qed.

Lemma polls_app evs1 evs2 : polls (evs1 ++ evs2) = (polls evs1 ++ polls evs2)%list.
Proof. unfold polls. now rewrite flat_map_app. Qed.

Lemma slept_app evs1 evs2 : slept (evs1 ++ evs2) = slept evs1 + slept evs2.
Proof.
  induction evs1 as [|ev evs1 IH]; simpl; [reflexivity|].
  rewrite IH. destruct (call ev); lia.
Qed.

Lemma waitCall_get cfg :
  waitCall cfg (DeploymentsGet (Cluster_TillerNamespace cfg) tillerDeploymentName)
  = true.
Proof. simpl. now rewrite String.eqb_refl. Qed.

(** The loop with [n] intervals left runs to its end on [n + 1] turns. *)
Lemma tillerWaitLoop_run {W V} (E : Env W V) cfg (n : nat) :
  (n <= 24)%nat ->
  forall fuel st, (n < fuel)%nat ->
  exists evs st',
    loop fuel (tillerWaitBody E cfg (5 * Second)) (5 * Second * Z.of_nat n) st
    = Some (tt, st')
    /\ trace st' = (trace st ++ evs)%list
    /\ forallb (waitCall cfg) (map call evs) = true
    /\ pollOutcome n evs
    /\ inTurns evs = true.
Proof.
  induction n as [|n IH]; intros Hn fuel st Hfuel;
    (destruct fuel as [|fuel]; [lia|]).
  - exists [], st. simpl. rewrite app_nil_r. repeat split.
    right. repeat split.
  - cbn [loop]. unfold tillerWaitBody at 1.
    assert (Hpos : (5 * Second * Z.of_nat (S n) >? 0) = true)
      by (apply Z.gtb_lt; unfold Second; lia).
    rewrite Hpos. unfold bind at 1. run_call r st1 T1.
    destruct (ReadyReplicas (deployment_of r) =? Replicas (deployment_of r))
      eqn:Hready.
    + eexists [_], st1. split; [reflexivity|]. split; [exact T1|]. split.
      * simpl map. cbn [forallb]. now rewrite waitCall_get.
      * split; [|exact Hready].
        left. exists [], (deployment_of r). simpl. repeat split; auto. lia.
    + unfold bind at 1. rewrite perform_eq.
      destruct (call_world_call E (TimeSleep (5 * Second)) st1)
        as (r' & st2 & -> & T2).
      unfold ret at 1.
      assert (Hsub : sub64 (5 * Second * Z.of_nat (S n)) (5 * Second)
                     = 5 * Second * Z.of_nat n).
      { unfold sub64. rewrite wrap64_small; unfold Second; lia. }
      rewrite Hsub.
      destruct (IH ltac:(lia) fuel st2 ltac:(lia))
        as (evs & st' & Hrun & Htr & Hcalls & Hout & Hturns).
      exists (Build_Event (DeploymentsGet (Cluster_TillerNamespace cfg)
                                          tillerDeploymentName) r
              :: Build_Event (TimeSleep (5 * Second)) r' :: evs), st'.
      split; [exact Hrun|]. split.
      { rewrite Htr, T2, T1, <- !app_assoc. reflexivity. }
      split.
      { simpl map. cbn [forallb]. rewrite waitCall_get, Hcalls. reflexivity. }
      assert (Hnot : negb (ready (deployment_of r)) = true)
        by (unfold ready; now rewrite Hready).
      split; [|cbn [inTurns call reply]; now rewrite Hnot, Hturns].
      destruct Hout as [(before & d & Hp & Hd & Hb & Hlen & Hs)
                       | (Hall & Hlen & Hs)].
      * left. exists (deployment_of r :: before), d.
        change (polls (?a :: ?b :: evs)) with (polls [a; b] ++ polls evs)%list.
        change (slept (?a :: ?b :: evs)) with (5 * Second + slept evs).
        rewrite Hp, Hs. simpl polls. simpl List.length. cbn [forallb].
        rewrite Hnot, Hb. repeat split; auto; lia.
      * right.
        change (polls (?a :: ?b :: evs)) with (deployment_of r :: polls evs).
        change (slept (?a :: ?b :: evs)) with (5 * Second + slept evs).
        cbn [forallb]. rewrite Hnot, Hall, Hs. simpl List.length.
        repeat split; auto; lia.
Qed.

Lemma waitForTiller_run {W V} (E : Env W V) cfg fuel st :
  (25 <= fuel)%nat ->
  exists r polling post st',
    waitForTiller E fuel cfg st = Some (None, st')
    /\ trace st'
       = (trace st
          ++ Build_Event (LogStartWait "Waiting for Tiller server to start") r
          :: polling ++ post)%list
    /\ map call post = [LogStopWait; LogDone "Tiller server started"]
    /\ forallb (waitCall cfg) (map call polling) = true
    /\ pollOutcome 24 polling
    /\ inTurns polling = true.
Proof.
  intros Hfuel. unfold waitForTiller. run_call r st1 T1.
  change (2 * 60 * Second) with (5 * Second * Z.of_nat 24).
  destruct (tillerWaitLoop_run E cfg 24 (le_n _) fuel st1 ltac:(lia))
    as (polling & st2 & Hloop & T2 & Hcalls & Hout & Hturns).
  rewrite (bind_Some _ _ _ _ _ Hloop).
  run_call r3 st3 T3.
  run_call r4 st4 T4.
  exists r, polling. eexists [_; _], st4. split; [reflexivity|]. split.
  { rewrite T4, T3, T2, T1, <- !app_assoc. reflexivity. }
  repeat split; assumption.
Qed.

Lemma waitStarted_app evs1 evs2 :
  waitStarted (evs1 ++ evs2) = waitStarted evs1 || waitStarted evs2.
Proof. unfold waitStarted. now rewrite map_app, existsb_app. Qed.

Lemma accountCalls_not_wait evs :
  forallb accountCall (map call evs) = true -> waitStarted evs = false.
Proof.
  unfold waitStarted. induction evs as [|ev evs IH]; simpl; [reflexivity|].
  intros H. apply andb_true_iff in H. destruct H as [Hc Hrest].
  rewrite (IH Hrest). destruct (call ev); try discriminate; reflexivity.
Qed.

Lemma installTiller_trace {W V} (E : Env W V) cfg st :
  exists res inst st',
    installTiller E cfg (tillerAccount cfg) (tillerInstallOptions cfg) st
    = Some (res, st')
    /\ trace st' = (trace st ++ inst)%list
    /\ installShape cfg res inst.
Proof.
  assert (Hgrants : forall s : St W,
    exists r1 r2 ri r3 r4 s',
      (err <- ensureRoleBinding E "tiller-config-manager"
                (Cluster_TillerNamespace cfg) (Cluster_TillerNamespace cfg)
                configManagerRules ;;
       match err with
       | Some _ => ret err
       | None =>
           perform E (InstallerInstall (tillerInstallOptions cfg)) ;;;
           ensureRoleBinding E tillerRoleName (Release_Namespace cfg)
             (Cluster_TillerNamespace cfg) defaultPolicyRules
       end) s = Some (None, s')
      /\ trace s' = (trace s ++ grantEvents cfg r1 r2 ri r3 r4)%list).
  { intros s.
    destruct (ensureRoleBinding_run E "tiller-config-manager"
                (Cluster_TillerNamespace cfg) (Cluster_TillerNamespace cfg)
                configManagerRules s) as (r1 & r2 & s1 & H1 & T1).
    rewrite (bind_Some _ _ _ _ _ H1). run_call ri s2 T2.
    destruct (ensureRoleBinding_run E tillerRoleName (Release_Namespace cfg)
                (Cluster_TillerNamespace cfg) defaultPolicyRules s2)
      as (r3 & r4 & s3 & H3 & T3).
    exists r1, r2, ri, r3, r4, s3. split; [exact H3|].
    rewrite T3, T2, T1, <- !app_assoc. reflexivity. }
  unfold installTiller, installShape.
  cbn [tillerAccount sa_ObjectMeta Namespace Name].
  run_call g st1 T1.
  destruct (err_of g) as [missing|] eqn:Hg.
  - unfold bind at 1. run_call c st2 T2. unfold ret at 1.
    destruct (err_of c) as [e|] eqn:Hc.
    + eexists (Some e), [_; _], st2. split; [reflexivity|]. split.
      { rewrite T2, T1, <- app_assoc. reflexivity. }
      exists g. rewrite Hg. exists c. rewrite Hc. split; reflexivity.
    + destruct (Hgrants st2) as (r1 & r2 & ri & r3 & r4 & st' & Hrun & Htr).
      eexists None, (_ :: _ :: grantEvents cfg r1 r2 ri r3 r4), st'.
      split; [exact Hrun|]. split.
      { rewrite Htr, T2, T1, <- !app_assoc. reflexivity. }
      exists g. rewrite Hg. exists c. rewrite Hc. split; [reflexivity|].
      exists r1, r2, ri, r3, r4. reflexivity.
  - unfold bind at 1. unfold ret at 1.
    destruct (Hgrants st1) as (r1 & r2 & ri & r3 & r4 & st' & Hrun & Htr).
    eexists None, (_ :: grantEvents cfg r1 r2 ri r3 r4), st'.
    split; [exact Hrun|]. split.
    { rewrite Htr, T1, <- !app_assoc. reflexivity. }
    exists g. rewrite Hg. split; [reflexivity|].
    exists r1, r2, ri, r3, r4. reflexivity.
Qed.

(** The refusal of a log made of two parts. *)
Lemma refusal_app evs1 evs2 :
  refusal (evs1 ++ evs2)
  = match refusal evs1 with
    | Some e => Some e
    | None => refusal evs2
    end.
Proof.
  unfold refusal. induction evs1 as [|ev evs1 IH]; [reflexivity|].
  cbn [app find].
  destruct (decidesWait (call ev)); cbn [andb]; [|exact IH].
  destruct (err_of (reply ev)) as [e|] eqn:He; cbn [is_nil negb];
    [now rewrite He | exact IH].
Qed.

(** The branch "Tiller is not there" returns the error of the service
    account's creation when that failed, and nil otherwise; it does not
    start the readiness wait. *)
Lemma installShape_refusal cfg res inst :
  installShape cfg res inst -> refusal inst = res /\ waitStarted inst = false.
Proof.
  intros (g & Hshape). cbv zeta in Hshape.
  destruct (err_of g) as [missing|].
  - destruct Hshape as (c & Hshape).
    destruct (err_of c) as [e|] eqn:Hc.
    + destruct Hshape as [-> ->]. unfold refusal. cbn. rewrite Hc. cbn.
      rewrite Hc. split; reflexivity.
    + destruct Hshape as (-> & r1 & r2 & ri & r3 & r4 & ->).
      unfold refusal. cbn. rewrite Hc. cbn. split; reflexivity.
  - destruct Hshape as (-> & r1 & r2 & ri & r3 & r4 & ->).
    split; reflexivity.
Qed.

(** C1, amended: every run of [ensureTiller] returns, and its log is what
    the cluster answered.  The calls before the readiness wait, [pre],
    decide whether the wait is run: when the creation of the service
    account or the upgrade of Tiller failed, [ensureTiller] returns that
    error and runs no wait; otherwise it runs the wait and returns nil.
    The wait only reads the Tiller deployment, sleeps and logs, a poll that
    does not show the deployment ready being followed by a sleep of 5
    seconds.  It ends at the first poll whose reply shows as many ready
    replicas as desired, after fewer than 24 polls that did not; or, when
    no poll shows that, after exactly 24 polls and 24 sleeps, the 120
    seconds of the bound: then too [ensureTiller] returns nil, not a
    timeout error.  A poll judges the deployment its reply carries and
    ignores the error of the lookup. *)
Theorem ensureTiller_wait_is_bounded_and_returns_nil :
  forall (W V : Type) (E : Env W V) (privateConfig : PrivateConfig)
         (upgrade : bool) (st : St W) (fuel : nat),
    (25 <= fuel)%nat ->
    exists res pre wait st',
      ensureTiller E fuel privateConfig upgrade st = Some (res, st')
      /\ trace st' = (trace st ++ pre ++ wait)%list
      /\ answered E (world st) (pre ++ wait) (world st')
      /\ waitStarted pre = false
      /\ match refusal pre with
         | Some e => res = Some e /\ wait = []
         | None =>
             res = None
             /\ exists r polling post,
                 wait = (Build_Event
                           (LogStartWait "Waiting for Tiller server to start") r
                         :: polling ++ post)%list
                 /\ forallb (waitCall privateConfig) (map call polling) = true
                 /\ pollOutcome 24 polling
                 /\ inTurns polling = true
                 /\ slept polling <= 2 * 60 * Second
                 /\ (map call post = [LogStopWait; LogDone "Tiller server started"]
                     \/ map call post = [LogStopWait; LogDone "Tiller server started";
                                         LogStopWait])
         end.
Proof.
  intros W V E cfg upgrade st fuel Hfuel.
  assert (Hbound : forall polling, pollOutcome 24 polling ->
                                   slept polling <= 2 * 60 * Second).
  { intros polling [(before & d & _ & _ & _ & Hlen & ->) | (_ & _ & ->)];
      unfold Second; lia. }
  cut (exists res pre wait st',
      ensureTiller E fuel cfg upgrade st = Some (res, st')
      /\ trace st' = (trace st ++ pre ++ wait)%list
      /\ waitStarted pre = false
      /\ match refusal pre with
         | Some e => res = Some e /\ wait = []
         | None =>
             res = None
             /\ exists r polling post,
                 wait = (Build_Event
                           (LogStartWait "Waiting for Tiller server to start") r
                         :: polling ++ post)%list
                 /\ forallb (waitCall cfg) (map call polling) = true
                 /\ pollOutcome 24 polling
                 /\ inTurns polling = true
                 /\ slept polling <= 2 * 60 * Second
                 /\ (map call post = [LogStopWait; LogDone "Tiller server started"]
                     \/ map call post = [LogStopWait; LogDone "Tiller server started";
                                         LogStopWait])
         end).
  { intros (res & pre & wait & st' & Hrun & Htr & Hrest).
    exists res, pre, wait, st'. split; [exact Hrun|]. split; [exact Htr|].
    split; [|exact Hrest].
    exact (asks_run E _ _ _ _ _ (ensureTiller_asks E fuel cfg upgrade) Hrun Htr). }
  unfold ensureTiller. run_call g st1 T1.
  destruct (err_of g) as [missing|].
  - run_call r2 st2 T2.
    change (installTiller E cfg _ _)
      with (installTiller E cfg (tillerAccount cfg) (tillerInstallOptions cfg)).
    destruct (installTiller_trace E cfg st2)
      as (res & inst & st3 & Hrun & T3 & Hshape).
    rewrite (bind_Some _ _ _ _ _ Hrun).
    destruct (installShape_refusal cfg res inst Hshape) as [Href Hnowait].
    assert (Hpre : forall r4,
      refusal ([Build_Event (DeploymentsGet (Cluster_TillerNamespace cfg)
                                            tillerDeploymentName) g;
                Build_Event (LogStartWait "Installing Tiller server") r2]
               ++ inst ++ [Build_Event LogStopWait r4]) = res
      /\ waitStarted ([Build_Event (DeploymentsGet (Cluster_TillerNamespace cfg)
                                                   tillerDeploymentName) g;
                       Build_Event (LogStartWait "Installing Tiller server") r2]
                      ++ inst ++ [Build_Event LogStopWait r4]) = false).
    { intros r4. rewrite !refusal_app, !waitStarted_app, Href, Hnowait.
      split; [now destruct res | reflexivity]. }
    destruct res as [e|].
    + run_call r4 st4 T4. destruct (Hpre r4) as [Hr Hw].
      exists (Some e),
        ([Build_Event (DeploymentsGet (Cluster_TillerNamespace cfg)
                                      tillerDeploymentName) g;
          Build_Event (LogStartWait "Installing Tiller server") r2]
         ++ inst ++ [Build_Event LogStopWait r4])%list, [], st4.
      split; [reflexivity|]. split.
      { rewrite T4, T3, T2, T1, app_nil_r, <- !app_assoc. reflexivity. }
      split; [exact Hw|]. rewrite Hr. split; reflexivity.
    + run_call r4 st4 T4. destruct (Hpre r4) as [Hr Hw].
      destruct (waitForTiller_run E cfg fuel st4 Hfuel)
        as (r & polling & post & st5 & Hwait & T5 & Hpost & Hcalls & Hout
            & Hturns).
      rewrite (bind_Some _ _ _ _ _ Hwait).
      run_call r6 st6 T6.
      exists None,
        ([Build_Event (DeploymentsGet (Cluster_TillerNamespace cfg)
                                      tillerDeploymentName) g;
          Build_Event (LogStartWait "Installing Tiller server") r2]
         ++ inst ++ [Build_Event LogStopWait r4])%list,
        (Build_Event (LogStartWait "Waiting for Tiller server to start") r
         :: polling ++ post ++ [Build_Event LogStopWait r6])%list, st6.
      split; [reflexivity|]. split.
      2:{ split; [exact Hw|]. rewrite Hr. split; [reflexivity|].
          exists r, polling, (post ++ [Build_Event LogStopWait r6])%list.
          split; [reflexivity|]. split; [exact Hcalls|]. split; [exact Hout|]. split; [exact Hturns|].
          split; [auto|]. right. rewrite map_app, Hpost. reflexivity. }
      rewrite T6, T5, T4, T3, T2, T1, <- !app_assoc. cbn [app].
      rewrite <- !app_assoc. reflexivity.
  - destruct upgrade.
    + run_call r2 st2 T2.
      run_call r3 st3 T3.
      run_call r4 st4 T4.
      destruct (err_of r3) as [e|] eqn:H3.
      * eexists (Some e), [_; _; _; _], [], st4. split; [reflexivity|]. split.
        { rewrite T4, T3, T2, T1, <- !app_assoc. reflexivity. }
        split; [reflexivity|]. unfold refusal. cbn. rewrite H3. cbn.
        rewrite H3. split; reflexivity.
      * destruct (waitForTiller_run E cfg fuel st4 Hfuel)
          as (r & polling & post & st5 & Hwait & T5 & Hpost & Hcalls & Hout
            & Hturns).
        eexists None, [_; _; _; _], _, st5. split; [exact Hwait|]. split.
        { rewrite T5, T4, T3, T2, T1, <- !app_assoc. reflexivity. }
        split; [reflexivity|]. unfold refusal. cbn. rewrite H3. cbn.
        split; [reflexivity|]. exists r, polling, post.
        split; [reflexivity|]. split; [exact Hcalls|]. split; [exact Hout|]. split; [exact Hturns|].
        split; auto.
    + destruct (waitForTiller_run E cfg fuel st1 Hfuel)
        as (r & polling & post & st5 & Hwait & T5 & Hpost & Hcalls & Hout
            & Hturns).
      eexists None, [_], _, st5. split; [exact Hwait|]. split.
      { rewrite T5, T1, <- !app_assoc. reflexivity. }
      split; [reflexivity|]. split; [reflexivity|]. exists r, polling, post.
      split; [reflexivity|]. split; [exact Hcalls|]. split; [exact Hout|]. split; [exact Hturns|].
      split; auto.
Qed.

(** The theorem on a deployment that never becomes ready. *)
Lemma ensureTiller_wait_witness :
  (25 <= 25)%nat
  /\ exists res pre wait st',
      ensureTiller (scripted neverReady) 25 exampleConfig false start
      = Some (res, st')
      /\ trace st' = (trace start ++ pre ++ wait)%list
      /\ answered (scripted neverReady) (world start) (pre ++ wait) (world st')
      /\ waitStarted pre = false.
Proof.
  split; [lia|].
  destruct (ensureTiller_wait_is_bounded_and_returns_nil nat string
              (scripted neverReady) exampleConfig false start 25 ltac:(lia))
    as (res & pre & wait & st' & Hrun & Htr & Hans & Hpre & _).
  exists res, pre, wait, st'. repeat split; assumption.
Defined.

(** C1 as stated fails: the deployment exists and none of the 24 polls of
    the wait sees it ready; after the 120 seconds of sleeping
    [ensureTiller] returns nil, not a timeout error. *)
Lemma ensureTiller_returns_nil_on_timeout :
  exists st',
    ensureTiller (scripted neverReady) 25 exampleConfig false start
    = Some (None, st')
    /\ forallb (fun d => negb (ready d)) (polls (trace st')) = true
    /\ List.length (polls (tl (trace st'))) = 24%nat
    /\ slept (trace st') = 2 * 60 * Second.
Proof. eexists. split; [vm_compute; reflexivity|]. vm_compute. auto. Qed.

(** ** NewClient: the health check *)

Lemma call_world_reply {W V} (E : Env W V) c st :
  fst (call_world E c st) = fst (respond E c (world st)).
Proof. unfold call_world. now destruct (respond E c (world st)). Qed.

(** A turn of the health-check loop that sees an error leaves the loop
    state as it was: nothing is subtracted from [helmWaitTime]. *)
Lemma helmBody_on_error {W V} (E : Env W V) client e st :
  err_of (fst (respond E (ListReleases client 1) (world st))) <> None ->
  exists e' r st',
    helmBody E client (2 * 60 * Second, e) st
    = Some (inl (2 * 60 * Second, Some e'), st')
    /\ trace st' = (trace st ++ [Build_Event (ListReleases client 1) r])%list.
Proof.
  intros Hfail. unfold helmBody.
  change (2 * 60 * Second >? 0) with true. cbv iota.
  unfold bind. rewrite perform_eq.
  rewrite <- call_world_reply in Hfail.
  destruct (call_world_call E (ListReleases client 1) st) as (r & st' & Hc & Htr).
  rewrite Hc in *. simpl in Hfail.
  destruct (err_of r) as [e'|]; [|contradiction].
  exists e', r, st'. split; [reflexivity | exact Htr].
Qed.

Lemma helmLoop_spins {W V} (E : Env W V) client :
  (forall c limit w, err_of (fst (respond E (ListReleases c limit) w)) <> None) ->
  forall fuel e st, loop fuel (helmBody E client) (2 * 60 * Second, e) st = None.
Proof.
  intros Hfail fuel. induction fuel as [|fuel IH]; intros e st; [reflexivity|].
  cbn [loop].
  destruct (helmBody_on_error E client e st (Hfail _ _ _))
    as (e' & r & st' & Hbody & _).
  rewrite (bind_Some _ _ _ _ _ Hbody). apply IH.
Qed.

Lemma awaitTiller_spins {W V} (E : Env W V) :
  (forall c limit w, err_of (fst (respond E (ListReleases c limit) w)) <> None) ->
  forall fuel tunnel st, awaitTiller E fuel tunnel st = None.
Proof.
  intros Hfail fuel tunnel st. unfold awaitTiller.
  run_call r st1 Tlog.
  unfold bind at 1. now rewrite helmLoop_spins.
Qed.

(** The health-check loop leaves only with a nil error: the test
    [helmWaitTime < 0] never holds. *)
Lemma helmLoop_leaves_with_nil {W V} (E : Env W V) client fuel :
  forall e st res st',
    loop fuel (helmBody E client) (2 * 60 * Second, e) st = Some (res, st') ->
    res = None.
Proof.
  induction fuel as [|fuel IH]; intros e st res st'; [discriminate|].
  cbn [loop]. unfold helmBody at 1.
  change (2 * 60 * Second >? 0) with true. cbv iota.
  unfold bind at 1. run_call r st1 Tlog.
  destruct (err_of r) as [e'|]; simpl.
  - apply IH.
  - unfold ret. congruence.
Qed.

(** C2 fails on the code: when every [ListReleases] call fails, the
    health-check loop of [NewClient] is, after any number of turns, still
    turning with its wait time at the full 120 seconds, having only called
    [ListReleases] and never slept; no amount of fuel lets the check
    return, so no error is ever surfaced. *)
Theorem health_check_never_ends_while_rpc_fails :
  forall (W V : Type) (E : Env W V),
    (forall c limit w, err_of (fst (respond E (ListReleases c limit) w)) <> None) ->
    forall (tunnel : Tunnel) (st : St W),
      (forall n : nat,
          exists e st',
            turns n (helmBody E (clientOn tunnel)) (2 * 60 * Second, None) st
            = Some (inl (2 * 60 * Second, e), st')
            /\ exists evs,
                trace st' = (trace st ++ evs)%list
                /\ map call evs = repeat (ListReleases (clientOn tunnel) 1) n)
      /\ (forall fuel : nat, awaitTiller E fuel tunnel st = None).
Proof.
  intros W V E Hfail tunnel st. split.
  - assert (Hgen : forall n e0 st0,
      exists e st',
        turns n (helmBody E (clientOn tunnel)) (2 * 60 * Second, e0) st0
        = Some (inl (2 * 60 * Second, e), st')
        /\ exists evs,
            trace st' = (trace st0 ++ evs)%list
            /\ map call evs = repeat (ListReleases (clientOn tunnel) 1) n).
    { induction n as [|n IH]; intros e0 st0.
      - exists e0, st0. split; [reflexivity|]. exists [].
        now rewrite app_nil_r.
      - cbn [turns].
        destruct (helmBody_on_error E (clientOn tunnel) e0 st0 (Hfail _ _ _))
          as (e1 & r & st1 & Hbody & T1).
        rewrite (bind_Some _ _ _ _ _ Hbody).
        destruct (IH (Some e1) st1) as (e & st' & Hturns & evs & T2 & Hcalls).
        exists e, st'. split; [exact Hturns|].
        exists (Build_Event (ListReleases (clientOn tunnel) 1) r :: evs).
        split.
        + rewrite T2, T1, <- app_assoc. reflexivity.
        + simpl. now rewrite Hcalls. }
    intros n. apply Hgen.
  - intros fuel. now apply awaitTiller_spins.
Qed.

(** The theorem on an endpoint that fails every call. *)
Lemma health_check_never_ends_witness :
  awaitTiller (scripted rpcDown) 1000 {| tunnel_Local := 44134 |} start = None.
Proof.
  refine (proj2 (health_check_never_ends_while_rpc_fails nat string
                   (scripted rpcDown) _ {| tunnel_Local := 44134 |} start) 1000%nat).
  intros c limit w. simpl. discriminate.
Defined.

(** ** NewClient: what it returns *)

Lemma bind_inv {W A B} (m : M W A) (k : A -> M W B) st x :
  bind m k st = Some x ->
  exists a st1, m st = Some (a, st1) /\ k a st1 = Some x.
Proof.
  unfold bind. destruct (m st) as [[a st1]|]; [eauto | discriminate].
Qed.

(** Whenever [NewClient] returns, it returns a wrapper with a nil error or
    no wrapper with a non-nil error. *)
Lemma NewClient_returns_wrapper_or_error {W V} (E : Env W V) fuel sched up st res st' :
  NewClient E fuel sched up st = Some (res, st') ->
  (exists w, res = (Some w, None)) \/ (exists e, res = (None, Some e)).
Proof.
  unfold NewClient. intros H.
  apply bind_inv in H. destruct H as (r0 & s0 & _ & H).
  apply bind_inv in H. destruct H as (r1 & s1 & _ & H).
  destruct (err_of r1) as [e|]; [inversion H; eauto|].
  apply bind_inv in H. destruct H as (tillerErr & s2 & _ & H).
  destruct tillerErr as [e|]; [inversion H; eauto|].
  apply bind_inv in H. destruct H as (r3 & s3 & _ & H).
  apply bind_inv in H. destruct H as (t & s4 & _ & H).
  apply bind_inv in H. destruct H as (r5 & s5 & _ & H).
  destruct (snd t) as [e|]; [inversion H; eauto|].
  apply bind_inv in H. destruct H as (h & s6 & _ & H).
  destruct (snd h) as [e|]; [inversion H; eauto|].
  unfold prepareHome in H.
  apply bind_inv in H. destruct H as (r7 & s7 & _ & H).
  destruct (err_of r7) as [e|]; [inversion H; eauto|].
  repeat (apply bind_inv in H; destruct H as (? & ? & _ & H)).
  inversion H. eauto.
Qed.

(** C10 fails on the code: with a cluster where everything succeeds but
    Tiller's RPC endpoint, which fails every call, [NewClient] never
    returns, whatever fuel its loops are given; it does not return a nil
    wrapper with the error of the health check. *)
Theorem NewClient_never_returns_while_rpc_fails :
  forall (fuel : nat) (sched : Scheduler) (upgradeTiller : bool),
    NewClient (scripted rpcDown) fuel sched upgradeTiller start = None.
Proof.
  intros fuel sched up.
  assert (Hfail : forall c limit w,
             err_of (fst (respond (scripted rpcDown) (ListReleases c limit) w))
             <> None) by (intros; simpl; discriminate).
  destruct fuel as [|fuel]; [destruct up; reflexivity|].
  destruct up; unfold NewClient, ensureTiller, waitForTiller;
    cbn -[awaitTiller prepareHome]; unfold bind at 1;
    rewrite (awaitTiller_spins _ Hfail); reflexivity.
Qed.

(** ** updateRepos: the fan-out and the join *)

Lemma replace_nth_split {A} (l : list A) (i : nat) (x : A) :
  nth_error l i = Some x ->
  exists l1 l2,
    l = (l1 ++ x :: l2)%list
    /\ forall y, replace_nth i y l = (l1 ++ y :: l2)%list.
Proof.
  revert i. induction l as [|a l IH]; intros [|i] H; try discriminate.
  - inversion H. subst. exists [], l. split; reflexivity.
  - destruct (IH i H) as (l1 & l2 & -> & Hrep).
    exists (a :: l1), l2. split; [reflexivity|].
    intros y. simpl. now rewrite Hrep.
Qed.

Lemma active_app gs1 gs2 : active (gs1 ++ gs2) = (active gs1 + active gs2)%nat.
Proof. unfold active. now rewrite map_app, list_sum_app. Qed.

Lemma active_cons x gs :
  active (x :: gs) = ((if exited x then 0 else 1) + active gs)%nat.
Proof. reflexivity. Qed.

Lemma refreshed_app gs1 gs2 :
  refreshed (gs1 ++ gs2) = (refreshed gs1 ++ refreshed gs2)%list.
Proof. unfold refreshed. now rewrite flat_map_app. Qed.

Lemma toLog_app gs1 gs2 : toLog (gs1 ++ gs2) = (toLog gs1 ++ toLog gs2)%list.
Proof. unfold toLog. now rewrite flat_map_app. Qed.

Lemma downloads_app evs1 evs2 :
  downloads (evs1 ++ evs2) = (downloads evs1 ++ downloads evs2)%list.
Proof. unfold downloads. now rewrite flat_map_app. Qed.

Lemma downloadFailures_app evs1 evs2 :
  downloadFailures (evs1 ++ evs2)
  = (downloadFailures evs1 ++ downloadFailures evs2)%list.
Proof. unfold downloadFailures. now rewrite flat_map_app. Qed.

Lemma logged_app evs1 evs2 :
  logged (evs1 ++ evs2) = (logged evs1 ++ logged evs2)%list.
Proof. unfold logged. now rewrite flat_map_app. Qed.

Lemma refreshCalls_app evs1 evs2 :
  forallb refreshCall (map call (evs1 ++ evs2))
  = forallb refreshCall (map call evs1) && forallb refreshCall (map call evs2).
Proof. now rewrite map_app, forallb_app. Qed.

(** With no goroutine left before [wg.Done()], every download is over
    and every error is logged. *)
Lemma active_zero gs :
  active gs = O ->
  refreshed gs = map repo_of_goroutine gs
  /\ toLog gs = []
  /\ forallb exited gs = true.
Proof.
  induction gs as [|x gs IH]; [auto|].
  change (x :: gs) with ([x] ++ gs)%list.
  rewrite active_app, refreshed_app, toLog_app. intros H.
  destruct x; cbn in H; try discriminate.
  destruct (IH H) as (-> & -> & Hex). simpl. auto.
Qed.

Lemma Joined_launch {W} (repos : list ChartRepository) (st : St W) :
  Joined repos (trace st) (launch repos st) [].
Proof.
  constructor; simpl; auto.
  - now rewrite app_nil_r.
  - discriminate.
Qed.

Lemma refreshed_cons x gs : refreshed (x :: gs) = (refreshed [x] ++ refreshed gs)%list.
Proof. exact (refreshed_app [x] gs). Qed.

Lemma toLog_cons x gs : toLog (x :: gs) = (toLog [x] ++ toLog gs)%list.
Proof. exact (toLog_app [x] gs). Qed.

Lemma Permutation_insert {A} (xs l1 l2 ins front : list A) :
  Permutation xs (front ++ l1 ++ l2) ->
  Permutation (xs ++ ins) (front ++ l1 ++ ins ++ l2).
Proof.
  intros H.
  apply Permutation_trans with ((front ++ l1 ++ l2) ++ ins)%list.
  - now apply Permutation_app_tail.
  - rewrite <- !app_assoc. do 2 apply Permutation_app_head.
    apply Permutation_app_comm.
Qed.

(** Every action of every goroutine keeps the invariant. *)
Lemma Joined_step {W V} (E : Env W V) home repos tr0 g evs c g' :
  Joined repos tr0 g evs ->
  step E home c g = Some g' ->
  exists evs', Joined repos tr0 g' evs'.
Proof.
  intros [Htr Hcalls Hrepos Hwg Hret Hdl Hlog] Hstep.
  destruct c as [|i]; simpl in Hstep.
  - unfold step_main in Hstep.
    destruct (returned g) eqn:Hr; [discriminate|].
    destruct (toLaunch g) as [|re rest] eqn:Hq.
    + destruct (wg g =? 0) eqn:Hz; [|discriminate].
      injection Hstep as <-. exists evs.
      constructor; cbn [shared goroutines toLaunch wg returned]; auto.
      intros _. split; [reflexivity|]. now apply Z.eqb_eq.
    + injection Hstep as <-. exists evs.
      constructor; cbn [shared goroutines toLaunch wg returned]; auto.
      * rewrite map_app, <- app_assoc. exact Hrepos.
      * rewrite active_app, Hwg, Nat2Z.inj_add. reflexivity.
      * discriminate.
      * rewrite refreshed_app. cbn. now rewrite app_nil_r.
      * rewrite toLog_app. cbn. now rewrite app_nil_r.
  - unfold step_goroutine in Hstep.
    destruct (nth_error (goroutines g) i) as [x|] eqn:Hnth; [|discriminate].
    destruct (replace_nth_split _ _ _ Hnth) as (l1 & l2 & Hgs & Hrep).
    rewrite Hgs, map_app, active_app, refreshed_app, toLog_app in *.
    rewrite active_cons, refreshed_cons, toLog_cons in *.
    destruct x as [re|re err|re|re]; [| | |discriminate];
      cbn [map repo_of_goroutine exited refreshed toLog flat_map app] in *.
    + destruct (call_world_call E (DownloadIndexFile re (Home_String E home))
                                (shared g)) as (r & st' & Hc & Htr').
      rewrite Hc in Hstep. injection Hstep as <-.
      set (ev := Build_Event (DownloadIndexFile re (Home_String E home)) r) in *.
      exists (evs ++ [ev])%list. rewrite Hrep.
      set (next := match err_of r with
                   | Some err => GLog re err
                   | None => GReturn re
                   end).
      assert (Hnext : repo_of_goroutine next = re /\ exited next = false
                      /\ refreshed [next] = [re]
                      /\ toLog [next] = downloadFailures [ev]).
      { unfold next, downloadFailures. cbn. destruct (err_of r); auto. }
      destruct Hnext as (Hn1 & Hn2 & Hn3 & Hn4). clearbody next.
      constructor; cbn [shared goroutines toLaunch wg returned].
      * rewrite Htr', Htr, <- app_assoc. reflexivity.
      * rewrite refreshCalls_app, Hcalls. reflexivity.
      * rewrite map_app. cbn [map]. rewrite Hn1. exact Hrepos.
      * rewrite active_app, active_cons, Hn2. exact Hwg.
      * exact Hret.
      * rewrite downloads_app, refreshed_app, refreshed_cons, Hn3.
        apply Permutation_trans with (re :: downloads evs).
        -- apply (Permutation_app_comm (downloads evs) [re]).
        -- now apply Permutation_cons_app.
      * rewrite downloadFailures_app, logged_app, toLog_app, toLog_cons, Hn4.
        cbn [logged flat_map call ev app]. rewrite app_nil_r.
        now apply Permutation_insert.
    + destruct (call_world_call E (LogError err "Unable to download repo index")
                                (shared g)) as (r & st' & Hc & Htr').
      rewrite Hc in Hstep. injection Hstep as <-.
      set (ev := Build_Event (LogError err "Unable to download repo index") r) in *.
      exists (evs ++ [ev])%list. rewrite Hrep.
      constructor; cbn [shared goroutines toLaunch wg returned].
      * rewrite Htr', Htr, <- app_assoc. reflexivity.
      * rewrite refreshCalls_app, Hcalls. reflexivity.
      * rewrite map_app. exact Hrepos.
      * rewrite active_app, active_cons. exact Hwg.
      * exact Hret.
      * rewrite downloads_app, refreshed_app, refreshed_cons.
        cbn. rewrite app_nil_r. exact Hdl.
      * rewrite downloadFailures_app, logged_app, toLog_app, toLog_cons.
        cbn [downloadFailures logged toLog flat_map call ev app].
        rewrite app_nil_r. apply (Permutation_trans Hlog).
        rewrite <- !app_assoc. apply Permutation_app_head.
        cbn [app]. symmetry. apply Permutation_middle.
    + injection Hstep as <-. exists evs. rewrite Hrep.
      constructor; cbn [shared goroutines toLaunch wg returned]; auto.
      * rewrite map_app. exact Hrepos.
      * rewrite active_app, active_cons, Hwg. cbn [exited]. lia.
      * intros Hr. destruct (Hret Hr) as [Hq Hz]. rewrite Hwg in Hz. lia.
      * rewrite refreshed_app, refreshed_cons. exact Hdl.
      * rewrite toLog_app, toLog_cons. exact Hlog.
Qed.

Lemma Joined_run {W V} (E : Env W V) home repos (st : St W) g :
  run E home (launch repos st) g ->
  exists evs, Joined repos (trace st) g evs.
Proof.
  intros Hrun. remember (launch repos st) as g0 eqn:Hg0.
  induction Hrun as [g|g g' g'' Hrun IH [c Hstep]].
  - subst g. exists []. apply Joined_launch.
  - destruct (IH Hg0) as (evs & HJ).
    exact (Joined_step E home _ _ _ _ _ _ HJ Hstep).
Qed.

(** Each action uses up some of the budget: no run is longer than the
    budget of its first state. *)
Lemma budget_step {W V} (E : Env W V) home c g g' :
  step E home c g = Some g' -> (budget g' < budget g)%nat.
Proof.
  intros Hstep. destruct c as [|i]; simpl in Hstep.
  - unfold step_main in Hstep.
    destruct (returned g) eqn:Hr; [discriminate|].
    destruct (toLaunch g) as [|re rest] eqn:Hq.
    + destruct (wg g =? 0); [|discriminate]. injection Hstep as <-.
      unfold budget. cbn [returned toLaunch goroutines]. rewrite Hr, Hq.
      simpl. lia.
    + injection Hstep as <-.
      unfold budget. cbn [returned toLaunch goroutines]. rewrite Hr, Hq.
      rewrite map_app, list_sum_app. simpl. lia.
  - unfold step_goroutine in Hstep.
    destruct (nth_error (goroutines g) i) as [x|] eqn:Hnth; [|discriminate].
    destruct (replace_nth_split _ _ _ Hnth) as (l1 & l2 & Hgs & Hrep).
    unfold budget.
    destruct x as [re|re err|re|re]; [| | |discriminate].
    + destruct (call_world E (DownloadIndexFile re (Home_String E home)) (shared g))
        as [r st'].
      injection Hstep as <-. cbn [returned toLaunch goroutines].
      rewrite Hrep, Hgs, !map_app, !list_sum_app.
      destruct (err_of r), (returned g); simpl; lia.
    + destruct (call_world E (LogError err "Unable to download repo index")
                           (shared g)) as [r st'].
      injection Hstep as <-. cbn [returned toLaunch goroutines].
      rewrite Hrep, Hgs, !map_app, !list_sum_app.
      destruct (returned g); simpl; lia.
    + injection Hstep as <-. cbn [returned toLaunch goroutines].
      rewrite Hrep, Hgs, !map_app, !list_sum_app.
      destruct (returned g); simpl; lia.
Qed.

Lemma enabled_steps {W V} (E : Env W V) home g c :
  In c (enabled E home g) -> exists g', step E home c g = Some g'.
Proof.
  unfold enabled. rewrite filter_In. intros [_ H].
  destruct (step E home c g) as [g'|]; [eauto | discriminate].
Qed.

Lemma active_positive gs :
  (0 < active gs)%nat ->
  exists i x, nth_error gs i = Some x /\ exited x = false.
Proof.
  induction gs as [|x gs IH]; [cbn; lia|].
  rewrite active_cons. destruct (exited x) eqn:Hx.
  - intros H. destruct (IH H) as (i & y & Hnth & Hy). exists (S i), y. auto.
  - intros _. exists O, x. auto.
Qed.

(** The join cannot deadlock: an action is enabled until the main
    goroutine is past [wg.Wait()]. *)
Lemma enabled_until_returned {W V} (E : Env W V) home repos tr0 g evs :
  Joined repos tr0 g evs ->
  returned g = false ->
  enabled E home g <> [].
Proof.
  intros HJ Hr Hnone.
  assert (Hin : forall c g', step E home c g = Some g' ->
                             In c (Main :: map Worker (seq 0 (List.length (goroutines g)))) ->
                             False).
  { intros c g' Hstep Hc.
    assert (In c (enabled E home g)) as Hen
        by (unfold enabled; rewrite filter_In, Hstep; auto).
    rewrite Hnone in Hen. exact Hen. }
  destruct (toLaunch g) as [|re rest] eqn:Hq.
  - destruct (wg g =? 0) eqn:Hz.
    + apply (Hin Main {| toLaunch := []; returned := true; wg := wg g;
                         goroutines := goroutines g; shared := shared g |}).
      * simpl. unfold step_main. now rewrite Hr, Hq, Hz.
      * now left.
    + apply Z.eqb_neq in Hz. rewrite (joined_counter _ _ _ _ HJ) in Hz.
      destruct (active_positive (goroutines g) ltac:(lia))
        as (i & x & Hnth & Hx).
      assert (Hlt : (i < List.length (goroutines g))%nat)
        by (apply nth_error_Some; congruence).
      assert (exists g', step E home (Worker i) g = Some g') as [g' Hstep].
      { simpl. unfold step_goroutine. rewrite Hnth.
        destruct x; try discriminate.
        - destruct (call_world E _ (shared g)). eauto.
        - destruct (call_world E _ (shared g)). eauto.
        - eauto. }
      apply (Hin (Worker i) g' Hstep). right.
      apply in_map, in_seq. lia.
  - apply (Hin Main {| toLaunch := rest; returned := false; wg := wg g + 1;
                       goroutines := (goroutines g ++ [GStart re])%list;
                       shared := shared g |}).
    + simpl. unfold step_main. now rewrite Hr, Hq.
    + now left.
Qed.

(** Under any scheduler the group runs until the main goroutine is past
    [wg.Wait()], within the budget. *)
Lemma schedule_returns {W V} (E : Env W V) home sched repos tr0 :
  forall n k g evs,
    Joined repos tr0 g evs ->
    (budget g <= n)%nat ->
    returned (schedule E home sched n k g) = true
    /\ exists evs', Joined repos tr0 (schedule E home sched n k g) evs'.
Proof.
  induction n as [|n IH]; intros k g evs HJ Hb.
  - simpl. split; [|eauto].
    unfold budget in Hb. destruct (returned g); [reflexivity | simpl in Hb; lia].
  - cbn [schedule].
    destruct (enabled E home g) as [|c cs] eqn:Hen.
    + split; [|eauto]. destruct (returned g) eqn:Hr; [reflexivity|].
      exfalso. exact (enabled_until_returned E home _ _ _ _ HJ Hr Hen).
    + set (pick := nth (Nat.modulo (sched k) (List.length (c :: cs))) (c :: cs) c).
      assert (Hpick : In pick (enabled E home g)).
      { rewrite Hen. apply nth_In. apply Nat.mod_upper_bound. discriminate. }
      destruct (enabled_steps E home g pick Hpick) as [g' Hstep].
      rewrite Hstep.
      destruct (Joined_step E home _ _ _ _ _ _ HJ Hstep) as [evs' HJ'].
      apply (IH (S k) g' evs' HJ').
      pose proof (budget_step E home _ _ _ Hstep). lia.
Qed.

Lemma schedule_is_a_run {W V} (E : Env W V) home sched :
  forall n k g, run E home g (schedule E home sched n k g).
Proof.
  assert (Htrans : forall g g' g'', steps E home g g' -> run E home g' g'' ->
                                    run E home g g'').
  { intros g g' g'' Hs Hr. induction Hr.
    - eapply run_step; [apply run_refl | exact Hs].
    - eapply run_step; eauto. }
  induction n as [|n IH]; intros k g; [apply run_refl|].
  cbn [schedule]. destruct (enabled E home g) as [|c cs]; [apply run_refl|].
  destruct (step E home _ g) as [g'|] eqn:Hstep; [|apply run_refl].
  eapply Htrans; [eexists; exact Hstep | apply IH].
Qed.

Lemma refreshAll_run {W V} (E : Env W V) sched home repos st :
  exists evs st',
    refreshAll E sched home repos st = Some (tt, st')
    /\ trace st' = (trace st ++ evs)%list
    /\ forallb refreshCall (map call evs) = true
    /\ Permutation (downloads evs) repos
    /\ Permutation (downloadFailures evs) (logged evs).
Proof.
  unfold refreshAll.
  set (final := schedule E home sched (budget (launch repos st)) 0
                         (launch repos st)).
  destruct (schedule_returns E home sched repos (trace st)
              (budget (launch repos st)) O (launch repos st) []
              (Joined_launch repos st) (le_n _))
    as (Hret & evs & [Htr Hcalls Hrepos Hwg Hdone Hdl Hlog]).
  fold final in Hret, Htr, Hrepos, Hwg, Hdone, Hdl, Hlog.
  rewrite Hret. destruct (Hdone Hret) as [Hq Hz].
  rewrite Hwg in Hz.
  assert (Hact : active (goroutines final) = O) by lia.
  destruct (active_zero (goroutines final) Hact) as (Hall & Hnolog & _).
  rewrite Hall in Hdl. rewrite Hnolog, app_nil_r in Hlog.
  rewrite Hq, app_nil_r in Hrepos. rewrite Hrepos in Hdl.
  exists evs. eexists. split; [reflexivity|]. auto.
Qed.

Lemma newRepositories_run {W V} (E : Env W V) :
  forall entries repos st,
  exists built evs st',
    newRepositories E entries repos st = Some (built, st')
    /\ trace st' = (trace st ++ evs)%list
    /\ forallb constructCall (map call evs) = true
    /\ match failures evs with
       | e :: _ => snd built = Some e
       | [] =>
           snd built = None
           /\ map call evs = map NewChartRepository entries
           /\ fst built = (repos ++ map (fun ev => repo_of (reply ev)) evs)%list
       end.
Proof.
  induction entries as [|repoData rest IH]; intros repos st.
  - exists (repos, None), [], st. simpl. rewrite !app_nil_r.
    repeat split; reflexivity.
  - cbn [newRepositories]. run_call r st1 T1.
    destruct (err_of r) as [e|] eqn:Herr.
    + exists (repos, Some e), [Build_Event (NewChartRepository repoData) r], st1.
      split; [reflexivity|]. split; [exact T1|]. split; [reflexivity|].
      unfold failures. simpl. rewrite Herr. reflexivity.
    + destruct (IH (repos ++ [repo_of r])%list st1)
        as (built & evs & st' & Hrun & Htr & Hcalls & Hout).
      exists built, (Build_Event (NewChartRepository repoData) r :: evs), st'.
      split; [exact Hrun|]. split.
      { rewrite Htr, T1, <- app_assoc. reflexivity. }
      split; [exact Hcalls|].
      unfold failures in *. cbn [flat_map reply]. rewrite Herr. cbn [app].
      match type of Hout with
      | match ?fs with _ => _ end => destruct fs; [|exact Hout]
      end.
      destruct Hout as (Hnone & Hc & Hbuilt). split; [exact Hnone|]. split.
      * simpl. now rewrite Hc.
      * rewrite Hbuilt, <- app_assoc. reflexivity.
Qed.



(** A run of [updateRepos] where the second of two downloads fails: the
    call returns nil, both indexes were asked for, the failure is
    logged. *)
Example updateRepos_with_one_failed_download :
  exists st',
    updateRepos (scripted secondDownloadFails) (fun k => k) exampleWrapper start
    = Some (None, st')
    /\ List.length (downloads (trace st')) = 2%nat
    /\ downloadFailures (trace st')
       = ["Get https://charts.example.org/incubator: EOF"]
    /\ logged (trace st') = ["Get https://charts.example.org/incubator: EOF"].
Proof. eexists. split; [vm_compute; reflexivity|]. vm_compute. auto. Qed.

(** ** Runs on the test doubles *)

Example ReleaseExists_found :
  option_map fst (ReleaseExists (scripted (fun c _ => allFine c)) exampleWrapper
                                "db" start)
  = Some (true, None).
Proof. reflexivity. Qed.

Example ReleaseExists_not_found :
  option_map fst (ReleaseExists (scripted noRelease) exampleWrapper "db" start)
  = Some (false, None).
Proof. reflexivity. Qed.

Example ReleaseExists_other_error :
  option_map fst (ReleaseExists (scripted rpcUnavailable) exampleWrapper "db" start)
  = Some (false, Some "rpc error: code = Unavailable").
Proof. reflexivity. Qed.

Example InstallChartByPath_upgrades :
  option_map (fun x => map call (trace (snd x)))
    (InstallChartByPath (scripted (fun c _ => allFine c)) exampleWrapper
                        "db" "apps" "./chart" None start)
  = Some [ChartutilLoad "./chart";
          ReleaseHistory (Client exampleWrapper) "db" 1;
          UpdateRelease (Client exampleWrapper) "db" "./chart"
            {| UpgradeTimeout := 600; UpdateValueOverrides := "";
               ReuseValues := false; UpgradeWait := true |}].
Proof. reflexivity. Qed.

Example InstallChartByPath_installs :
  option_map (fun x => map call (trace (snd x)))
    (InstallChartByPath (scripted noRelease) exampleWrapper
                        "db" "apps" "./chart" (Some "replicas: 2") start)
  = Some [ChartutilLoad "./chart";
          ReleaseHistory (Client exampleWrapper) "db" 1;
          InstallReleaseFromChart (Client exampleWrapper)
            {| chart_Name := "./chart"; chart_Dependencies := [] |} "apps"
            {| InstallTimeout := 600; ValueOverrides := "replicas: 2";
               ReleaseName := "db"; InstallReuseName := false;
               InstallWait := true |}].
Proof. reflexivity. Qed.

Example DeleteTiller_two_refusals :
  option_map fst (DeleteTiller (scripted teardownRefused) exampleConfig start)
  = Some (Some ("serviceaccounts is forbidden" ++ newline
                ++ "roles not found" ++ newline))
  /\ option_map (fun x => List.length (trace (snd x)))
       (DeleteTiller (scripted teardownRefused) exampleConfig start)
     = Some 6%nat.
Proof. split; reflexivity. Qed.

Example ensureTiller_ready_after_a_while :
  option_map (fun x => (fst x, slept (trace (snd x))))
    (ensureTiller (scripted readyLater) 25 exampleConfig false start)
  = Some (None, 4 * (5 * Second)).
Proof. vm_compute. reflexivity. Qed.

(** With a healthy cluster [NewClient] returns a wrapper and no error. *)
Example NewClient_on_a_healthy_cluster :
  option_map fst (NewClient (scripted (fun c _ => allFine c)) 1 (fun k => k)
                            false start)
  = Some (Some exampleWrapper, None).
Proof. vm_compute. reflexivity. Qed.

(** ** The progress line *)

Lemma written_app (outs1 outs2 : list LoadingText.Output) :
  LoadingText.written (outs1 ++ outs2)
  = LoadingText.written outs1 ++ LoadingText.written outs2.
Proof.
  induction outs1 as [|o outs1 IH]; simpl; [reflexivity|].
  destruct o; rewrite IH; [now rewrite append_assoc | reflexivity | reflexivity].
Qed.

Lemma rune_cases (r : Z) : 0 <= r <= 3 -> r = 0 \/ r = 1 \/ r = 2 \/ r = 3.
Proof. lia. Qed.

(** One render: what it sends and what it leaves. *)
Lemma render_run (l : LoadingText.loadingText) :
  0 <= LoadingText.loadingRune l <= 3 ->
  exists outs,
    LoadingText.Stream (LoadingText.render l)
    = (LoadingText.Stream l ++ outs)%list
    /\ LoadingText.written outs
       = (if LoadingText.isShown l then LoadingText.carriageReturn else "")
         ++ LoadingText.line (LoadingText.Message l) (LoadingText.loadingRune l)
    /\ LoadingText.Message (LoadingText.render l) = LoadingText.Message l
    /\ LoadingText.isShown (LoadingText.render l) = true
    /\ LoadingText.loadingRune (LoadingText.render l)
       = (LoadingText.loadingRune l + 1) mod 4.
Proof.
  destruct l as [st m r shown chan]. cbn [LoadingText.loadingRune
    LoadingText.Stream LoadingText.Message LoadingText.isShown].
  intros H.
  destruct (rune_cases r H) as [-> | [-> | [-> | ->]]]; destruct shown;
    (eexists; split;
     [ unfold LoadingText.render, LoadingText.write, LoadingText.colour; cbn;
       rewrite <- ?app_assoc; reflexivity
     | cbn; rewrite ?append_empty_r; repeat split; reflexivity ]).
Qed.

(** X1: with the rotation at a position from 0 to 3, [getLoadingChar]
    returns the one character of "|/-\" at that position and moves the
    rotation one on, back to 0 after 3; it touches nothing else. *)
Theorem getLoadingChar_rotates :
  forall l : LoadingText.loadingText,
    0 <= LoadingText.loadingRune l <= 3 ->
    fst (LoadingText.getLoadingChar l)
    = LoadingText.spoke (LoadingText.loadingRune l)
    /\ String.length (fst (LoadingText.getLoadingChar l)) = 1%nat
    /\ LoadingText.loadingRune (snd (LoadingText.getLoadingChar l))
       = (LoadingText.loadingRune l + 1) mod 4
    /\ LoadingText.Stream (snd (LoadingText.getLoadingChar l))
       = LoadingText.Stream l
    /\ LoadingText.Message (snd (LoadingText.getLoadingChar l))
       = LoadingText.Message l
    /\ LoadingText.isShown (snd (LoadingText.getLoadingChar l))
       = LoadingText.isShown l.
Proof.
  intros [st m r shown chan]. cbn [LoadingText.loadingRune]. intros H.
  destruct (rune_cases r H) as [-> | [-> | [-> | ->]]];
    repeat split; reflexivity.
Qed.

Lemma getLoadingChar_rotates_witness :
  fst (LoadingText.getLoadingChar
         {| LoadingText.Stream := []; LoadingText.Message := "Installing";
            LoadingText.loadingRune := 3; LoadingText.isShown := true;
            LoadingText.stopChan := true |})
  = LoadingText.backslash
  /\ LoadingText.loadingRune
       (snd (LoadingText.getLoadingChar
               {| LoadingText.Stream := []; LoadingText.Message := "Installing";
                  LoadingText.loadingRune := 3; LoadingText.isShown := true;
                  LoadingText.stopChan := true |})) = 0.
Proof.
  destruct (getLoadingChar_rotates
              {| LoadingText.Stream := []; LoadingText.Message := "Installing";
                 LoadingText.loadingRune := 3; LoadingText.isShown := true;
                 LoadingText.stopChan := true |})
    as (Hc & _ & Hr & _).
  - simpl. lia.
  - split; [exact Hc | exact Hr].
Defined.

Lemma blanks_length (n : nat) : String.length (LoadingText.blanks n) = n.
Proof.
  unfold LoadingText.blanks. generalize O.
  induction n as [|n IH]; intros from; simpl; [reflexivity|].
  now rewrite IH.
Qed.

Lemma write_blanks (xs : list nat) (l : LoadingText.loadingText) :
  exists outs,
    LoadingText.Stream (fold_left (fun l _ => LoadingText.write " " l) xs l)
    = (LoadingText.Stream l ++ outs)%list
    /\ LoadingText.written outs = fold_right (fun _ acc => " " ++ acc) "" xs
    /\ LoadingText.Message (fold_left (fun l _ => LoadingText.write " " l) xs l)
       = LoadingText.Message l.
Proof.
  revert l. induction xs as [|x xs IH]; intros l; simpl.
  - exists []. rewrite app_nil_r. auto.
  - destruct (IH (LoadingText.write " " l)) as (outs & Hs & Hw & Hm).
    exists (LoadingText.StreamWrite " " :: outs). rewrite Hs, Hm. simpl.
    rewrite <- app_assoc, Hw. auto.
Qed.

Lemma erase_run (l : LoadingText.loadingText) :
  exists outs,
    LoadingText.Stream (LoadingText.erase l) = (LoadingText.Stream l ++ outs)%list
    /\ LoadingText.written outs
       = LoadingText.carriageReturn
         ++ LoadingText.blanks (String.length (LoadingText.Message l) + 9)
         ++ LoadingText.carriageReturn.
Proof.
  unfold LoadingText.erase.
  destruct (write_blanks
              (seq 0 (String.length
                        (LoadingText.Message
                           (LoadingText.write LoadingText.carriageReturn l)) + 9))
              (LoadingText.write LoadingText.carriageReturn l))
    as (outs & Hs & Hw & Hm).
  exists (LoadingText.StreamWrite LoadingText.carriageReturn :: outs
          ++ [LoadingText.StreamWrite LoadingText.carriageReturn])%list.
  split.
  - cbn [LoadingText.write LoadingText.Stream]. rewrite Hs. cbn.
    rewrite <- !app_assoc. reflexivity.
  - cbn [LoadingText.written fold_right].
    change (fold_right _ "" (outs ++ ?t)) with (LoadingText.written (outs ++ t)).
    rewrite written_app, Hw. reflexivity.
Qed.

(** X2: the line a render shows is 9 characters longer than the message,
    and what [Stop] sends to the stream is a carriage return, exactly as
    many blanks as that line is long, and a carriage return: it wipes the
    whole line and nothing more. *)
Theorem Stop_wipes_exactly_the_rendered_line :
  forall (s : LoadingText.Running),
    0 <= LoadingText.loadingRune (LoadingText.spinner s) <= 3 ->
    (0 < LoadingText.selecting s)%nat ->
    exists shown s' wiped,
      LoadingText.Stream (LoadingText.render (LoadingText.spinner s))
      = (LoadingText.Stream (LoadingText.spinner s) ++ shown)%list
      /\ LoadingText.written shown
         = (if LoadingText.isShown (LoadingText.spinner s)
            then LoadingText.carriageReturn else "")
           ++ LoadingText.line (LoadingText.Message (LoadingText.spinner s))
                               (LoadingText.loadingRune (LoadingText.spinner s))
      /\ LoadingText.Stop s = Some s'
      /\ LoadingText.Stream (LoadingText.spinner s')
         = (LoadingText.Stream (LoadingText.spinner s) ++ wiped)%list
      /\ LoadingText.written wiped
         = LoadingText.carriageReturn
           ++ LoadingText.blanks
                (String.length
                   (LoadingText.line
                      (LoadingText.Message (LoadingText.spinner s))
                      (LoadingText.loadingRune (LoadingText.spinner s))))
           ++ LoadingText.carriageReturn.
Proof.
  intros s Hr Hsel.
  destruct (render_run (LoadingText.spinner s) Hr) as (shown & Hs & Hw & _).
  destruct (erase_run (LoadingText.spinner s)) as (wiped & Hes & Hew).
  unfold LoadingText.Stop.
  destruct (LoadingText.selecting s) as [|n] eqn:Hn; [lia|].
  exists shown. eexists. exists wiped.
  split; [exact Hs|]. split; [exact Hw|]. split; [reflexivity|].
  split; [exact Hes|]. rewrite Hew.
  assert (Hlen : String.length
                   (LoadingText.line (LoadingText.Message (LoadingText.spinner s))
                      (LoadingText.loadingRune (LoadingText.spinner s)))
                 = (String.length (LoadingText.Message (LoadingText.spinner s)) + 9)%nat).
  { destruct (rune_cases _ Hr) as [-> | [-> | [-> | ->]]]; cbn; lia. }
  now rewrite Hlen.
Qed.

Lemma Stop_wipes_witness :
  exists s',
    LoadingText.Stop
      {| LoadingText.spinner :=
           {| LoadingText.Stream := []; LoadingText.Message := "Installing";
              LoadingText.loadingRune := 2; LoadingText.isShown := true;
              LoadingText.stopChan := true |};
         LoadingText.rendering := 0; LoadingText.selecting := 1 |} = Some s'.
Proof.
  destruct (Stop_wipes_exactly_the_rendered_line
              {| LoadingText.spinner :=
                   {| LoadingText.Stream := []; LoadingText.Message := "Installing";
                      LoadingText.loadingRune := 2; LoadingText.isShown := true;
                      LoadingText.stopChan := true |};
                 LoadingText.rendering := 0; LoadingText.selecting := 1 |})
    as (shown & s' & wiped & _ & _ & Hstop & _).
  - simpl. lia.
  - simpl. lia.
  - exists s'. exact Hstop.
Defined.

Lemma line_mod (m : string) (k : Z) :
  LoadingText.line m (k mod 4) = LoadingText.line m k.
Proof. unfold LoadingText.line, LoadingText.spoke. now rewrite Z.mod_mod. Qed.

(** The renders of the timer: each redraws the line over the last. *)
Lemma ticks_run (n : nat) :
  forall (s : LoadingText.Running) (k : Z),
    LoadingText.loadingRune (LoadingText.spinner s) = k mod 4 ->
    LoadingText.isShown (LoadingText.spinner s) = true ->
    (0 < LoadingText.selecting s)%nat ->
    exists s' outs,
      LoadingText.ticks n s = Some s'
      /\ LoadingText.Stream (LoadingText.spinner s')
         = (LoadingText.Stream (LoadingText.spinner s) ++ outs)%list
      /\ LoadingText.written outs
         = LoadingText.redrawn (LoadingText.Message (LoadingText.spinner s)) k n
      /\ LoadingText.Message (LoadingText.spinner s')
         = LoadingText.Message (LoadingText.spinner s)
      /\ LoadingText.rendering s' = LoadingText.rendering s
      /\ LoadingText.selecting s' = LoadingText.selecting s.
Proof.
  induction n as [|n IH]; intros s k Hk Hshown Hsel.
  - exists s, []. rewrite app_nil_r. repeat split.
  - cbn [LoadingText.ticks]. unfold LoadingText.tick.
    destruct (LoadingText.selecting s) as [|w] eqn:Hw; [lia|].
    assert (Hr : 0 <= LoadingText.loadingRune (LoadingText.spinner s) <= 3).
    { rewrite Hk. pose proof (Z.mod_pos_bound k 4). lia. }
    destruct (render_run (LoadingText.spinner s) Hr)
      as (outs1 & Hs1 & Hw1 & Hm1 & Hshown1 & Hrune1).
    rewrite Hshown, Hk, line_mod in Hw1.
    destruct (IH {| LoadingText.spinner := LoadingText.render (LoadingText.spinner s);
                    LoadingText.rendering := LoadingText.rendering s;
                    LoadingText.selecting := S w |} (k + 1))
      as (s' & outs2 & Hticks & Hs2 & Hw2 & Hm2 & Hren & Hsel2).
    + cbn [LoadingText.spinner]. rewrite Hrune1, Hk.
      now rewrite Z.add_mod_idemp_l.
    + exact Hshown1.
    + cbn. lia.
    + cbn [LoadingText.spinner LoadingText.rendering LoadingText.selecting] in *.
      exists s', (outs1 ++ outs2)%list. split; [exact Hticks|].
      split. { rewrite Hs2, Hs1, <- app_assoc. reflexivity. }
      split. { rewrite written_app, Hw1, Hw2, Hm1. cbn [LoadingText.redrawn].
               now rewrite !append_assoc. }
      split; [congruence|]. split; [exact Hren | exact Hsel2].
Qed.

(** X3: one wait from [Start] to [Stop].  [Stop] cannot go through
    before the goroutine has rendered once.  After that first render and
    any number of timer renders, [Stop] goes through, and the stream has
    received the line, then one carriage return and redrawn line per timer
    render with the rotation moving one on each time, then the wipe; no
    goroutine is left, and another [Stop] would block. *)
Theorem wait_from_Start_to_Stop :
  forall (l : LoadingText.loadingText) (n : nat),
    0 <= LoadingText.loadingRune l <= 3 ->
    LoadingText.Stop (LoadingText.Start (LoadingText.idle l)) = None
    /\ exists s2 s3 s4 outs,
        LoadingText.firstRender (LoadingText.Start (LoadingText.idle l)) = Some s2
        /\ LoadingText.ticks n s2 = Some s3
        /\ LoadingText.Stop s3 = Some s4
        /\ LoadingText.Stream (LoadingText.spinner s4)
           = (LoadingText.Stream l ++ outs)%list
        /\ LoadingText.written outs
           = LoadingText.line (LoadingText.Message l) (LoadingText.loadingRune l)
             ++ LoadingText.redrawn (LoadingText.Message l)
                                    (LoadingText.loadingRune l + 1) n
             ++ LoadingText.carriageReturn
             ++ LoadingText.blanks (String.length (LoadingText.Message l) + 9)
             ++ LoadingText.carriageReturn
        /\ LoadingText.rendering s4 = O
        /\ LoadingText.selecting s4 = O
        /\ LoadingText.Stop s4 = None.
Proof.
  intros l n Hr. split; [reflexivity|].
  set (l0 := LoadingText.spinner (LoadingText.Start (LoadingText.idle l))).
  assert (Hr0 : 0 <= LoadingText.loadingRune l0 <= 3) by exact Hr.
  destruct (render_run l0 Hr0) as (outs1 & Hs1 & Hw1 & Hm1 & Hshown1 & Hrune1).
  assert (Hst0 : LoadingText.Stream l0 = LoadingText.Stream l) by reflexivity.
  assert (Hm0 : LoadingText.Message l0 = LoadingText.Message l) by reflexivity.
  assert (Hrune0 : LoadingText.loadingRune l0 = LoadingText.loadingRune l)
    by reflexivity.
  assert (Hshown0 : LoadingText.isShown l0 = false) by reflexivity.
  rewrite Hst0 in Hs1. rewrite Hshown0, Hm0, Hrune0 in Hw1.
  rewrite Hm0 in Hm1. rewrite Hrune0 in Hrune1. cbn [append] in Hw1.
  set (s2 := {| LoadingText.spinner := LoadingText.render l0;
                LoadingText.rendering := O; LoadingText.selecting := 1 |}).
  destruct (ticks_run n s2 (LoadingText.loadingRune l + 1))
    as (s3 & outs2 & Hticks & Hs2 & Hw2 & Hm2 & Hren & Hsel).
  { exact Hrune1. }
  { exact Hshown1. }
  { cbn. lia. }
  destruct (erase_run (LoadingText.spinner s3)) as (outs3 & Hs3 & Hw3).
  cbn [s2 LoadingText.spinner LoadingText.rendering LoadingText.selecting]
    in Hs2, Hw2, Hm2, Hren, Hsel.
  exists s2, s3.
  exists {| LoadingText.spinner := LoadingText.erase (LoadingText.spinner s3);
            LoadingText.rendering := O; LoadingText.selecting := O |}.
  exists (outs1 ++ outs2 ++ outs3)%list.
  split; [reflexivity|]. split; [exact Hticks|]. split.
  { unfold LoadingText.Stop. now rewrite Hsel, Hren. }
  split.
  { cbn [LoadingText.spinner]. rewrite Hs3, Hs2, Hs1, <- !app_assoc.
    reflexivity. }
  split.
  { rewrite !written_app, Hw1, Hw2, Hw3, Hm2, Hm1. reflexivity. }
  repeat split.
Qed.

Lemma wait_from_Start_to_Stop_witness :
  LoadingText.Stop
    (LoadingText.Start
       (LoadingText.idle
          {| LoadingText.Stream := []; LoadingText.Message := "Installing";
             LoadingText.loadingRune := 0; LoadingText.isShown := false;
             LoadingText.stopChan := false |})) = None.
Proof.
  refine (proj1 (wait_from_Start_to_Stop
                   {| LoadingText.Stream := []; LoadingText.Message := "Installing";
                      LoadingText.loadingRune := 0; LoadingText.isShown := false;
                      LoadingText.stopChan := false |} 3%nat _)).
  simpl. lia.
Defined.

(** ** NewClient: the tunnel *)

Lemma tunnelReplies_app evs1 evs2 :
  tunnelReplies (evs1 ++ evs2) = (tunnelReplies evs1 ++ tunnelReplies evs2)%list.
Proof. unfold tunnelReplies. now rewrite flat_map_app. Qed.

Lemma tunnelCall_new cfg kubeconfig :
  tunnelCall cfg kubeconfig
             (PortforwarderNew (Cluster_TillerNamespace cfg) kubeconfig) = true.
Proof. simpl. now rewrite !String.eqb_refl. Qed.

(** The loop with [n] intervals left. *)
Lemma tunnelLoop_run {W V} (E : Env W V) cfg kubeconfig (n : nat) :
  (n <= 24)%nat ->
  forall fuel tunnel0 err0 st, (n < fuel)%nat ->
  exists res evs st',
    loop fuel (tunnelBody E cfg kubeconfig (5 * Second))
         (5 * Second * Z.of_nat n, tunnel0, err0) st = Some (res, st')
    /\ trace st' = (trace st ++ evs)%list
    /\ forallb (tunnelCall cfg kubeconfig) (map call evs) = true
    /\ ((n = O /\ evs = [] /\ res = (tunnel0, err0))
        \/ exists before r,
            tunnelReplies evs = (before ++ [r])%list
            /\ forallb failed before = true
            /\ res = (tunnel_of r, err_of r)
            /\ ((err_of r = None
                 /\ (List.length before < n)%nat
                 /\ slept evs = 5 * Second * Z.of_nat (List.length before))
                \/ (err_of r <> None
                    /\ S (List.length before) = n
                    /\ slept evs = 5 * Second * Z.of_nat n))).
Proof.
  induction n as [|n IH]; intros Hn fuel tunnel0 err0 st Hfuel;
    (destruct fuel as [|fuel]; [lia|]).
  - exists (tunnel0, err0), [], st. rewrite app_nil_r.
    split; [reflexivity|]. split; [reflexivity|]. split; [reflexivity|].
    left. auto.
  - cbn [loop]. unfold tunnelBody at 1.
    assert (Hpos : (5 * Second * Z.of_nat (S n) >? 0) = true)
      by (apply Z.gtb_lt; unfold Second; lia).
    assert (Hneg : (5 * Second * Z.of_nat (S n) <? 0) = false)
      by (apply Z.ltb_ge; unfold Second; lia).
    rewrite Hpos. unfold bind at 1. run_call r st1 T1.
    destruct (err_of r) as [e|] eqn:Herr; cbn [is_nil orb]; rewrite ?Hneg.
    + run_call r' st2 T2. unfold ret at 1.
      assert (Hsub : sub64 (5 * Second * Z.of_nat (S n)) (5 * Second)
                     = 5 * Second * Z.of_nat n).
      { unfold sub64. rewrite wrap64_small; unfold Second; lia. }
      rewrite Hsub.
      destruct (IH ltac:(lia) fuel (tunnel_of r) (Some e) st2 ltac:(lia))
        as (res & evs & st' & Hrun & Htr & Hcalls & Hout).
      exists res.
      exists (Build_Event (PortforwarderNew (Cluster_TillerNamespace cfg)
                                            kubeconfig) r
              :: Build_Event (TimeSleep (5 * Second)) r' :: evs), st'.
      split; [exact Hrun|]. split.
      { rewrite Htr, T2, T1, <- !app_assoc. reflexivity. }
      split.
      { simpl map. cbn [forallb]. rewrite tunnelCall_new, Hcalls. reflexivity. }
      right.
      assert (Hfailed : failed r = true) by (unfold failed; now rewrite Herr).
      change (tunnelReplies (?a :: ?b :: evs)) with (r :: tunnelReplies evs).
      change (slept (?a :: ?b :: evs)) with (5 * Second + slept evs).
      destruct Hout as [(-> & -> & ->)
                       | (before & r0 & Hrep & Hbefore & Hres & Hcase)].
      * exists [], r. rewrite Herr. repeat split; auto.
        right. split; [discriminate|]. split; [reflexivity|]. simpl. lia.
      * exists (r :: before), r0. rewrite Hrep. cbn [forallb].
        rewrite Hfailed, Hbefore. repeat split; auto.
        destruct Hcase as [(Hok & Hlen & Hs) | (Hko & Hlen & Hs)].
        -- left. rewrite Hs. simpl List.length. repeat split; auto; lia.
        -- right. rewrite Hs. simpl List.length. repeat split; auto; lia.
    + exists (tunnel_of r, None).
      eexists [_], st1. split; [reflexivity|]. split; [exact T1|]. split.
      { simpl map. cbn [forallb]. now rewrite tunnelCall_new. }
      right. exists [], r. rewrite Herr. repeat split.
      left. repeat split. simpl. lia.
Qed.



(** ** NewClient: leaving the health check *)

Lemma helmLoop_returns {W V} (E : Env W V) client fuel :
  forall e st res st',
    loop fuel (helmBody E client) (2 * 60 * Second, e) st = Some (res, st') ->
    res = None
    /\ exists before r,
        trace st'
        = (trace st
           ++ map (Build_Event (ListReleases client 1)) (before ++ [r]))%list
        /\ forallb failed before = true
        /\ err_of r = None.
Proof.
  induction fuel as [|fuel IH]; intros e st res st'; [discriminate|].
  cbn [loop]. unfold helmBody at 1.
  change (2 * 60 * Second >? 0) with true. cbv iota.
  unfold bind at 1. run_call r st1 T1.
  destruct (err_of r) as [e'|] eqn:Herr; cbn [is_nil orb].
  - change (2 * 60 * Second <? 0) with false. cbv iota. unfold ret at 1.
    intros Hloop. destruct (IH _ _ _ _ Hloop) as (-> & before & r0 & Htr & Hb & Hr0).
    split; [reflexivity|]. exists (r :: before), r0.
    split. { rewrite Htr, T1, <- app_assoc. reflexivity. }
    split; [|exact Hr0]. cbn [forallb]. unfold failed at 1.
    now rewrite Herr, Hb.
  - unfold ret. intros Hloop. injection Hloop as <- <-.
    split; [reflexivity|]. exists [], r. rewrite T1. auto.
Qed.

(** X5: whenever the health check of [NewClient] comes back, it comes
    back with a nil error, right after the first [ListReleases] call that
    succeeded; the calls before it all failed and nothing, not even a
    sleep, lies between two calls.  So [NewClient] never returns an error
    of the health check. *)
Theorem health_check_returns_only_nil :
  forall (W V : Type) (E : Env W V) (fuel : nat) (tunnel : Tunnel)
         (st : St W) (res : HelmClient * error) (st' : St W),
    awaitTiller E fuel tunnel st = Some (res, st') ->
    res = (clientOn tunnel, None)
    /\ exists r0 before r r1 r2,
        trace st'
        = (trace st
           ++ Build_Event
                (LogStartWait "Waiting for tiller server to become ready") r0
           :: map (Build_Event (ListReleases (clientOn tunnel) 1)) (before ++ [r])
           ++ [Build_Event LogStopWait r1;
               Build_Event (LogDone "Tiller server is ready") r2])%list
        /\ forallb failed before = true
        /\ err_of r = None.
Proof.
  intros W V E fuel tunnel st res st'. unfold awaitTiller.
  fold (clientOn tunnel). run_call r0 st0 T0.
  intros H. apply bind_inv in H. destruct H as (e & st1 & Hloop & H).
  destruct (helmLoop_returns E _ _ _ _ _ _ Hloop) as (-> & before & r & T1 & Hb & Hr).
  revert H. run_call r1 st2 T2. run_call r2 st3 T3.
  unfold ret. intros H. injection H as <- <-.
  split; [reflexivity|]. exists r0, before, r, r1, r2.
  split; [|split; assumption].
  rewrite T3, T2, T1, T0, <- !app_assoc. reflexivity.
Qed.

Lemma health_check_returns_witness :
  exists res st',
    awaitTiller (scripted (fun c _ => allFine c)) 1
                {| tunnel_Local := 44134 |} start = Some (res, st')
    /\ res = (clientOn {| tunnel_Local := 44134 |}, None).
Proof.
  destruct (awaitTiller (scripted (fun c _ => allFine c)) 1
                        {| tunnel_Local := 44134 |} start)
    as [[res st']|] eqn:Hrun.
  - exists res, st'. split; [reflexivity|].
    exact (proj1 (health_check_returns_only_nil _ _ _ _ _ _ _ _ Hrun)).
  - vm_compute in Hrun. discriminate Hrun.
Defined.

(** ** ensureTiller: what it changes in the cluster *)

Lemma writes_app evs1 evs2 : writes (evs1 ++ evs2) = (writes evs1 ++ writes evs2)%list.
Proof. unfold writes. now rewrite map_app, filter_app. Qed.

Lemma created_app evs1 evs2 :
  created (evs1 ++ evs2) = (created evs1 ++ created evs2)%list.
Proof. unfold created. now rewrite flat_map_app. Qed.

(** The wait changes nothing in the cluster. *)
Lemma waitCalls_write_nothing cfg evs :
  forallb (waitCall cfg) (map call evs) = true ->
  writes evs = [] /\ created evs = [].
Proof.
  induction evs as [|ev evs IH]; [auto|].
  simpl map. cbn [forallb]. intros H. apply andb_true_iff in H.
  destruct H as [Hc Hrest]. destruct (IH Hrest) as [Hw Hcr].
  change (ev :: evs) with ([ev] ++ evs)%list.
  rewrite writes_app, created_app, Hw, Hcr.
  unfold writes, created. simpl.
  destruct (call ev); try discriminate; auto.
Qed.

(** The whole wait, the progress log included, is made of calls of the
    wait. *)
Lemma waitForTiller_calls {W V} (E : Env W V) cfg fuel st :
  (25 <= fuel)%nat ->
  exists wait st',
    waitForTiller E fuel cfg st = Some (None, st')
    /\ trace st' = (trace st ++ wait)%list
    /\ forallb (waitCall cfg) (map call wait) = true
    /\ waitStarted wait = true.
Proof.
  intros Hfuel.
  destruct (waitForTiller_run E cfg fuel st Hfuel)
    as (r & polling & post & st' & Hrun & Htr & Hpost & Hcalls & _).
  eexists (_ :: polling ++ post)%list, st'.
  split; [exact Hrun|]. split; [exact Htr|]. split; [|reflexivity].
  simpl map. cbn [forallb waitCall]. rewrite map_app, forallb_app, Hcalls, Hpost.
  reflexivity.
Qed.

Lemma ensureTiller_present_run {W V} (E : Env W V) cfg upgrade st fuel :
  (25 <= fuel)%nat ->
  err_of (fst (call_world E (DeploymentsGet (Cluster_TillerNamespace cfg)
                                            tillerDeploymentName) st)) = None ->
  exists res evs st',
    ensureTiller E fuel cfg upgrade st = Some (res, st')
    /\ trace st' = (trace st ++ evs)%list
    /\ created evs = []
    /\ if upgrade
       then exists u,
           writes evs = [InstallerUpgrade (tillerUpgradeOptions cfg)]
           /\ In (Build_Event (InstallerUpgrade (tillerUpgradeOptions cfg)) u) evs
           /\ res = err_of u
           /\ waitStarted evs = is_nil (err_of u)
       else writes evs = [] /\ res = None /\ waitStarted evs = true.
Proof.
  intros Hfuel Hg. unfold ensureTiller.
  destruct (call_world_call E (DeploymentsGet (Cluster_TillerNamespace cfg)
                                              tillerDeploymentName) st)
    as (g & st1 & Hc & T1).
  rewrite Hc in Hg. cbn [fst] in Hg.
  unfold bind at 1. rewrite perform_eq, Hc, Hg.
  destruct upgrade.
  - run_call r2 st2 T2. unfold bind at 1. rewrite perform_eq.
    change (call_world E (InstallerUpgrade _) st2)
      with (call_world E (InstallerUpgrade (tillerUpgradeOptions cfg)) st2).
    destruct (call_world_call E (InstallerUpgrade (tillerUpgradeOptions cfg)) st2)
      as (u & st3 & -> & T3).
    run_call r4 st4 T4.
    destruct (err_of u) as [e|] eqn:Hu.
    + eexists (Some e), [_; _; _; _], st4. split; [reflexivity|]. split.
      { rewrite T4, T3, T2, T1, <- !app_assoc. reflexivity. }
      split; [reflexivity|]. exists u. rewrite Hu.
      split; [reflexivity|]. split; [simpl; auto|]. split; reflexivity.
    + destruct (waitForTiller_calls E cfg fuel st4 Hfuel)
        as (wait & st5 & Hrun & T5 & Hcalls & Hstarted).
      destruct (waitCalls_write_nothing cfg wait Hcalls) as [Hw Hcr].
      eexists None, ([_; _; _; _] ++ wait)%list, st5.
      split; [exact Hrun|]. split.
      { rewrite T5, T4, T3, T2, T1, <- !app_assoc. reflexivity. }
      split. { now rewrite created_app, Hcr. }
      exists u. rewrite Hu, writes_app, Hw, waitStarted_app, Hstarted.
      split; [reflexivity|]. split; [simpl; auto|].
      split; [reflexivity | apply orb_true_r].
  - destruct (waitForTiller_calls E cfg fuel st1 Hfuel)
      as (wait & st5 & Hrun & T5 & Hcalls & Hstarted).
    destruct (waitCalls_write_nothing cfg wait Hcalls) as [Hw Hcr].
    eexists None, ([_] ++ wait)%list, st5.
    split; [exact Hrun|]. split.
    { rewrite T5, T1, <- !app_assoc. reflexivity. }
    split. { now rewrite created_app, Hcr. }
    rewrite writes_app, Hw, waitStarted_app, Hstarted.
    split; [reflexivity|]. split; [reflexivity | apply orb_true_r].
Qed.

Lemma ensureTiller_absent_run {W V} (E : Env W V) cfg upgrade st fuel :
  (25 <= fuel)%nat ->
  err_of (fst (call_world E (DeploymentsGet (Cluster_TillerNamespace cfg)
                                            tillerDeploymentName) st)) <> None ->
  exists res d r2 inst tail st',
    ensureTiller E fuel cfg upgrade st = Some (res, st')
    /\ trace st'
       = (trace st
          ++ Build_Event (DeploymentsGet (Cluster_TillerNamespace cfg)
                                         tillerDeploymentName) d
          :: Build_Event (LogStartWait "Installing Tiller server") r2
          :: inst ++ tail)%list
    /\ installShape cfg res inst
    /\ forallb (waitCall cfg) (map call tail) = true
    /\ waitStarted tail = is_nil res.
Proof.
  intros Hfuel Hg. unfold ensureTiller.
  destruct (call_world_call E (DeploymentsGet (Cluster_TillerNamespace cfg)
                                              tillerDeploymentName) st)
    as (g & st1 & Hc & T1).
  rewrite Hc in Hg. cbn [fst] in Hg.
  unfold bind at 1. rewrite perform_eq, Hc.
  destruct (err_of g) as [missing|]; [clear Hg | contradiction].
  run_call r2 st2 T2.
  change (installTiller E cfg _ _)
    with (installTiller E cfg (tillerAccount cfg) (tillerInstallOptions cfg)).
  destruct (installTiller_trace E cfg st2) as (res & inst & st3 & Hrun & T3 & Hshape).
  rewrite (bind_Some _ _ _ _ _ Hrun).
  destruct res as [e|].
  - run_call r4 st4 T4.
    exists (Some e), g, r2, inst. eexists [_], st4. split; [reflexivity|]. split.
    { rewrite T4, T3, T2, T1, <- !app_assoc. reflexivity. }
    split; [exact Hshape|]. split; reflexivity.
  - run_call r4 st4 T4.
    destruct (waitForTiller_calls E cfg fuel st4 Hfuel)
      as (wait & st5 & Hwait & T5 & Hcalls & Hstarted).
    rewrite (bind_Some _ _ _ _ _ Hwait). run_call r6 st6 T6.
    exists None, g, r2, inst. eexists ([_] ++ wait ++ [_])%list, st6.
    split; [reflexivity|]. split.
    { rewrite T6, T5, T4, T3, T2, T1, <- !app_assoc. reflexivity. }
    split; [exact Hshape|]. split.
    + rewrite !map_app, !forallb_app, Hcalls. reflexivity.
    + rewrite !waitStarted_app, Hstarted. reflexivity.
Qed.

(** X6: when the Tiller deployment is found, [ensureTiller] creates
    nothing.  Without the upgrade flag it changes nothing in the cluster
    and returns nil after the wait.  With it, its one change is the
    installer's upgrade, asked with an empty image and otherwise the
    options of an install; the result is the upgrade's error, and the
    wait is run exactly when the upgrade succeeded. *)
Theorem ensureTiller_leaves_a_present_tiller_alone :
  forall (W V : Type) (E : Env W V) (privateConfig : PrivateConfig)
         (upgrade : bool) (st : St W) (fuel : nat),
    (25 <= fuel)%nat ->
    err_of (fst (respond E (DeploymentsGet (Cluster_TillerNamespace privateConfig)
                                           tillerDeploymentName) (world st)))
    = None ->
    exists res evs st',
      ensureTiller E fuel privateConfig upgrade st = Some (res, st')
      /\ trace st' = (trace st ++ evs)%list
      /\ created evs = []
      /\ if upgrade
         then exists u,
             writes evs = [InstallerUpgrade (tillerUpgradeOptions privateConfig)]
             /\ In (Build_Event
                      (InstallerUpgrade (tillerUpgradeOptions privateConfig)) u) evs
             /\ res = err_of u
             /\ waitStarted evs = is_nil (err_of u)
         else writes evs = [] /\ res = None /\ waitStarted evs = true.
Proof.
  intros W V E cfg upgrade st fuel Hfuel Hg.
  rewrite <- call_world_reply in Hg.
  exact (ensureTiller_present_run E cfg upgrade st fuel Hfuel Hg).
Qed.

Lemma ensureTiller_present_witness :
  exists res evs st',
    ensureTiller (scripted (fun c _ => allFine c)) 25 exampleConfig true start
    = Some (res, st')
    /\ trace st' = (trace start ++ evs)%list
    /\ created evs = [].
Proof.
  destruct (ensureTiller_leaves_a_present_tiller_alone nat string
              (scripted (fun c _ => allFine c)) exampleConfig true start 25)
    as (res & evs & st' & Hrun & Htr & Hcr & _).
  - lia.
  - reflexivity.
  - exists res, evs, st'. auto.
Defined.

(** X7: when the lookup of the Tiller deployment fails, [ensureTiller]
    looks the service account up and creates it only when that lookup
    fails.  A failed creation is returned at once: no role, no binding
    and no install is asked, and no wait is run.  Otherwise the role and
    binding of the config-manager grant, the install, and the role and
    binding of Tiller's grant in the release namespace follow in that
    order, whatever each answers, then the wait, and the result is nil.
    Before and after these calls nothing changes the cluster. *)
Theorem ensureTiller_installs_an_absent_tiller :
  forall (W V : Type) (E : Env W V) (privateConfig : PrivateConfig)
         (upgrade : bool) (st : St W) (fuel : nat),
    (25 <= fuel)%nat ->
    err_of (fst (respond E (DeploymentsGet (Cluster_TillerNamespace privateConfig)
                                           tillerDeploymentName) (world st)))
    <> None ->
    exists res d r2 inst tail st',
      ensureTiller E fuel privateConfig upgrade st = Some (res, st')
      /\ trace st'
         = (trace st
            ++ Build_Event (DeploymentsGet (Cluster_TillerNamespace privateConfig)
                                           tillerDeploymentName) d
            :: Build_Event (LogStartWait "Installing Tiller server") r2
            :: inst ++ tail)%list
      /\ installShape privateConfig res inst
      /\ writes tail = []
      /\ waitStarted tail = is_nil res.
Proof.
  intros W V E cfg upgrade st fuel Hfuel Hg.
  rewrite <- call_world_reply in Hg.
  destruct (ensureTiller_absent_run E cfg upgrade st fuel Hfuel Hg)
    as (res & d & r2 & inst & tail & st' & Hrun & Htr & Hshape & Hcalls & Hw).
  exists res, d, r2, inst, tail, st'.
  repeat (split; [assumption|]).
  split; [|exact Hw]. now apply (waitCalls_write_nothing cfg).
Qed.

Lemma ensureTiller_absent_witness :
  exists res st',
    ensureTiller (scripted freshCluster) 25 exampleConfig false start
    = Some (res, st').
Proof.
  destruct (ensureTiller_installs_an_absent_tiller nat string
              (scripted freshCluster) exampleConfig false start 25)
    as (res & d & r2 & inst & tail & st' & Hrun & _).
  - lia.
  - simpl. discriminate.
  - exists res, st'. exact Hrun.
Defined.





(** ** NewClient: the local home *)

Lemma updateRepos_total {W V} (E : Env W V) sched w st :
  exists res l more st',
    updateRepos E sched w st = Some (res, st')
    /\ trace st'
       = (trace st
          ++ Build_Event (LoadRepositoriesFile
                            (Home_RepositoryFile E (Settings_Home w))) l
          :: more)%list.
Proof.
  unfold updateRepos. run_call l st1 T1.
  destruct (err_of l) as [e|].
  { exists (Some e), l, [], st1. split; [reflexivity | exact T1]. }
  destruct (newRepositories_run E (entries_of l) [] st1)
    as (built & building & st2 & Hnew & T2 & _).
  rewrite (bind_Some _ _ _ _ _ Hnew).
  destruct (snd built) as [e|].
  { exists (Some e), l, building, st2. split; [reflexivity|].
    rewrite T2, T1, <- app_assoc. reflexivity. }
  destruct (refreshAll_run E sched (Settings_Home w) (fst built) st2)
    as (refreshing & st3 & Hrun & T3 & _).
  rewrite (bind_Some _ _ _ _ _ Hrun).
  exists None, l, (building ++ refreshing)%list, st3. split; [reflexivity|].
  rewrite T3, T2, T1, <- !app_assoc. reflexivity.
Qed.

Lemma prepareHome_run {W V} (E : Env W V) sched client st :
  exists res h rest st',
    prepareHome E sched client st = Some (res, st')
    /\ trace st' = (trace st ++ Build_Event HomedirDir h :: rest)%list
    /\ match err_of h with
       | Some e => res = (None, Some e) /\ rest = []
       | None =>
           res = (Some {| Client := client;
                          Settings_Home := string_of h ++ "/.devspace/helm" |},
                  None)
           /\ homeShape E (string_of h) rest
       end.
Proof.
  unfold prepareHome. run_call h st0 T0.
  destruct (err_of h) as [e|] eqn:Hh.
  { exists (None, Some e), h, [], st0. rewrite Hh. split; [reflexivity|]. auto. }
  run_call m1 st1 T1. run_call m2 st2 T2. run_call m3 st3 T3.
  unfold bind at 1. run_call s1 st4 T4.
  set (helmHomePath := string_of h ++ "/.devspace/helm") in *.
  set (repoFile := (helmHomePath ++ "/repository") ++ "/repositories.yaml") in *.
  assert (Hwritten : exists written st5,
    (match err_of s1 with
     | Some _ => perform E (WriteToFile defaultRepositories repoFile) ;;; ret tt
     | None => ret tt
     end) st4 = Some (tt, st5)
    /\ trace st5 = (trace st4 ++ written)%list
    /\ match err_of s1 with
       | Some _ =>
           exists w, written
                     = [Build_Event (WriteToFile defaultRepositories repoFile) w]
       | None => written = []
       end).
  { destruct (err_of s1).
    - run_call w st5 T5. eexists [_], st5. split; [reflexivity|].
      split; [exact T5|]. exists w. reflexivity.
    - exists [], st4. rewrite app_nil_r. auto. }
  destruct Hwritten as (written & st5 & Hw & T5 & Hwshape).
  rewrite Hw. run_call s2 st6 T6.
  assert (Hsynced : exists synced st7,
    (match err_of s2 with
     | Some _ =>
         updateRepos E sched
           {| Client := client; Settings_Home := helmHomePath |} ;;; ret tt
     | None => ret tt
     end) st6 = Some (tt, st7)
    /\ trace st7 = (trace st6 ++ synced)%list
    /\ match err_of s2 with
       | Some _ =>
           exists l more,
             synced = Build_Event (LoadRepositoriesFile
                        (Home_RepositoryFile E helmHomePath)) l :: more
       | None => synced = []
       end).
  { destruct (err_of s2).
    - destruct (updateRepos_total E sched
                  {| Client := client; Settings_Home := helmHomePath |} st6)
        as (res & l & more & st7 & Hup & T7).
      rewrite (bind_Some _ _ _ _ _ Hup).
      eexists (_ :: more), st7. split; [reflexivity|].
      split; [exact T7|]. exists l, more. reflexivity.
    - exists [], st6. rewrite app_nil_r. auto. }
  destruct Hsynced as (synced & st7 & Hs & T7 & Hsshape).
  unfold bind at 1. rewrite Hs. unfold ret at 1.
  eexists _, h, _, st7. rewrite Hh. split; [reflexivity|]. split.
  { rewrite T7, T6, T5, T4, T3, T2, T1, T0, <- !app_assoc. reflexivity. }
  split; [reflexivity|].
  exists m1, m2, m3, s1, s2, written, synced.
  split; [|split; assumption]. reflexivity.
Qed.


(** ** NewClient: from start to end *)

Lemma ensureTiller_error_is_logged {W V} (E : Env W V) cfg upgrade st fuel :
  (25 <= fuel)%nat ->
  exists res evs st',
    ensureTiller E fuel cfg upgrade st = Some (res, st')
    /\ trace st' = (trace st ++ evs)%list
    /\ (res = None
        \/ exists e ev, res = Some e /\ In ev evs /\ err_of (reply ev) = Some e).
Proof.
  intros Hfuel.
  destruct (err_of (fst (call_world E
               (DeploymentsGet (Cluster_TillerNamespace cfg)
                               tillerDeploymentName) st))) as [missing|] eqn:Hg.
  - destruct (ensureTiller_absent_run E cfg upgrade st fuel Hfuel)
      as (res & d & r2 & inst & tail & st1 & Hrun & Htr & Hshape & _).
    { rewrite Hg. discriminate. }
    exists res. eexists. exists st1. split; [exact Hrun|]. split; [exact Htr|].
    destruct res as [e|]; [right | now left].
    destruct Hshape as (g & Hshape). destruct (err_of g); [|destruct Hshape; discriminate].
    destruct Hshape as (c & Hshape).
    destruct (err_of c) as [e'|] eqn:Hc; [|destruct Hshape; discriminate].
    destruct Hshape as (He & ->). injection He as ->.
    exists e', (Build_Event (ServiceAccountsCreate (Cluster_TillerNamespace cfg)
                                                   (tillerAccount cfg)) c).
    split; [reflexivity|]. split; [|exact Hc].
    right. right. right. left. reflexivity.
  - destruct (ensureTiller_present_run E cfg upgrade st fuel Hfuel Hg)
      as (res & evs & st1 & Hrun & Htr & _ & Hup).
    exists res, evs, st1. split; [exact Hrun|]. split; [exact Htr|].
    destruct upgrade.
    + destruct Hup as (u & _ & Hin & -> & _).
      destruct (err_of u) as [e|] eqn:Hu; [right | now left].
      exists e, (Build_Event (InstallerUpgrade (tillerUpgradeOptions cfg)) u).
      split; [reflexivity|]. split; [exact Hin | exact Hu].
    + destruct Hup as (_ & -> & _). now left.
Qed.

Lemma tunnelReplies_in evs r :
  In r (tunnelReplies evs) -> exists ev, In ev evs /\ reply ev = r.
Proof.
  unfold tunnelReplies. rewrite in_flat_map. intros (ev & Hin & Hr).
  exists ev. split; [exact Hin|].
  destruct (call ev); try contradiction. now destruct Hr.
Qed.

Lemma awaitTiller_ok {W V} (E : Env W V) fuel tunnel st :
  (forall c limit w, err_of (fst (respond E (ListReleases c limit) w)) = None) ->
  (1 <= fuel)%nat ->
  exists evs st',
    awaitTiller E fuel tunnel st = Some (clientOn tunnel, None, st')
    /\ trace st' = (trace st ++ evs)%list.
Proof.
  intros Hok Hfuel. destruct fuel as [|fuel]; [lia|].
  unfold awaitTiller. fold (clientOn tunnel). run_call r0 st0 T0.
  cbn [loop]. unfold helmBody at 1.
  change (2 * 60 * Second >? 0) with true. cbv iota.
  pose proof (Hok (clientOn tunnel) 1 (world st0)) as Hr.
  rewrite <- call_world_reply in Hr.
  unfold bind at 1. unfold bind at 1. unfold bind at 1. rewrite perform_eq.
  destruct (call_world_call E (ListReleases (clientOn tunnel) 1) st0)
    as (r & st1 & Hc & T1).
  rewrite Hc in *. cbn [fst] in Hr. rewrite Hr. cbn [is_nil orb].
  unfold ret at 1. unfold ret at 1.
  run_call r1 st2 T2. run_call r2 st3 T3.
  eexists [_; _; _; _], st3. split; [reflexivity|].
  rewrite T3, T2, T1, T0, <- !app_assoc. reflexivity.
Qed.

(** X10: while [ListReleases] answers without error, [NewClient] run
    with enough fuel for its bounded loops returns.  It returns either a
    wrapper with a nil error, or no wrapper with an error that is, as it
    stands, the error of one of the calls it made: the kube config, the
    service-account creation or the upgrade of Tiller, the last attempt
    at the tunnel, or the home directory. *)
Theorem NewClient_returns_a_wrapper_or_the_error_of_a_call :
  forall (W V : Type) (E : Env W V) (fuel : nat) (sched : Scheduler)
         (upgradeTiller : bool) (st : St W),
    (25 <= fuel)%nat ->
    (forall c limit w, err_of (fst (respond E (ListReleases c limit) w)) = None) ->
    exists res evs st',
      NewClient E fuel sched upgradeTiller st = Some (res, st')
      /\ trace st' = (trace st ++ evs)%list
      /\ ((exists w, res = (Some w, None))
          \/ exists e ev,
              res = (None, Some e) /\ In ev evs /\ err_of (reply ev) = Some e).
Proof.
  intros W V E fuel sched up st Hfuel Hok. unfold NewClient.
  run_call r0 st0 T0. run_call r1 st1 T1.
  destruct (err_of r1) as [e|] eqn:H1.
  { eexists (None, Some e), [_; _], st1. split; [reflexivity|]. split.
    { rewrite T1, T0, <- app_assoc. reflexivity. }
    right. exists e, (Build_Event KubectlGetClientConfig r1).
    split; [reflexivity|]. split; [simpl; auto | exact H1]. }
  destruct (ensureTiller_error_is_logged E (config_of r0) up st1 fuel Hfuel)
    as (tillerErr & evs2 & st2 & H2 & T2 & Hlogged).
  rewrite (bind_Some _ _ _ _ _ H2).
  destruct tillerErr as [e|].
  { destruct Hlogged as [Hnone | (e' & ev & He & Hin & Hev)]; [discriminate|].
    injection He as ->.
    eexists (None, Some e'), ([_; _] ++ evs2)%list, st2.
    split; [reflexivity|]. split.
    { rewrite T2, T1, T0, <- !app_assoc. reflexivity. }
    right. exists e', ev. split; [reflexivity|]. split; [|exact Hev].
    apply in_or_app. now right. }
  run_call r3 st3 T3.
  change (2 * 60 * Second) with (5 * Second * Z.of_nat 24).
  destruct (tunnelLoop_run E (config_of r0) (rest_of r1) 24 (le_n _) fuel
                           (Build_Tunnel 0) None st3 ltac:(lia))
    as (t & evs4 & st4 & H4 & T4 & _
        & [(Hn & _) | (before & r & Hrep & _ & Ht & _)]); [discriminate|].
  rewrite (bind_Some _ _ _ _ _ H4). run_call r5 st5 T5.
  rewrite Ht. cbn [fst snd].
  destruct (err_of r) as [e|] eqn:Hr.
  { destruct (tunnelReplies_in evs4 r) as (ev & Hin & Hev).
    { rewrite Hrep. apply in_or_app. right. now left. }
    eexists (None, Some e), ([_; _] ++ evs2 ++ [_] ++ evs4 ++ [_])%list, st5.
    split; [reflexivity|]. split.
    { rewrite T5, T4, T3, T2, T1, T0, <- !app_assoc. reflexivity. }
    right. exists e, ev. split; [reflexivity|]. split; [|now rewrite Hev].
    rewrite !in_app_iff. tauto. }
  destruct (awaitTiller_ok E fuel (tunnel_of r) st5 Hok ltac:(lia))
    as (evs6 & st6 & H6 & T6).
  rewrite (bind_Some _ _ _ _ _ H6). cbn [fst snd].
  destruct (prepareHome_run E sched (clientOn (tunnel_of r)) st6)
    as (res & h & rest & st7 & H7 & T7 & Hhome).
  exists res.
  eexists ([_; _] ++ evs2 ++ [_] ++ evs4 ++ [_] ++ evs6
           ++ Build_Event HomedirDir h :: rest)%list, st7.
  split; [exact H7|]. split.
  { rewrite T7, T6, T5, T4, T3, T2, T1, T0, <- !app_assoc. reflexivity. }
  destruct (err_of h) as [e|] eqn:Hh.
  - destruct Hhome as (-> & _). right.
    exists e, (Build_Event HomedirDir h).
    split; [reflexivity|]. split; [|exact Hh].
    rewrite !in_app_iff. cbn [In]. tauto.
  - destruct Hhome as (-> & _). left. eexists. reflexivity.
Qed.

Lemma NewClient_returns_witness :
  exists res st',
    NewClient (scripted tunnelDown) 25 (fun k => k) false start = Some (res, st').
Proof.
  destruct (NewClient_returns_a_wrapper_or_the_error_of_a_call nat string
              (scripted tunnelDown) 25 (fun k => k) false start)
    as (res & evs & st' & Hrun & _).
  - lia.
  - intros c limit w. reflexivity.
  - exists res, st'. exact Hrun.
Defined.

(** X11: on every run of [NewClient] that returns, whatever the fuel and
    whatever the collaborators answer, the wrapper is there exactly when
    the error is nil. *)
Theorem NewClient_never_returns_both_or_neither :
  forall (W V : Type) (E : Env W V) (fuel : nat) (sched : Scheduler)
         (upgradeTiller : bool) (st : St W)
         (res : option HelmClientWrapper * Go.error) (st' : St W),
    NewClient E fuel sched upgradeTiller st = Some (res, st') ->
    (fst res = None <-> snd res <> None).
Proof.
  intros W V E fuel sched up st res st' H.
  destruct (NewClient_returns_wrapper_or_error E fuel sched up st res st' H)
    as [(w & ->) | (e & ->)]; cbn; split; congruence.
Qed.

Lemma NewClient_never_returns_both_witness :
  exists res st',
    NewClient (scripted (fun c _ => allFine c)) 1 (fun k => k) false start
    = Some (res, st')
    /\ (fst res = None <-> snd res <> None).
Proof.
  destruct (NewClient (scripted (fun c _ => allFine c)) 1 (fun k => k) false start)
    as [[res st']|] eqn:Hrun.
  - exists res, st'. split; [reflexivity|].
    exact (NewClient_never_returns_both_or_neither _ _ _ _ _ _ _ _ _ Hrun).
  - vm_compute in Hrun. discriminate Hrun.
Defined.

(** ** InstallChartByPath: the chart and what it depends on *)

(** X12: [InstallChartByPath] asks nothing of Tiller before the chart
    and what it depends on are there.  A chart that lists dependencies
    has its requirements read and its dependencies updated, and is then
    loaded again; a chart that lists none is loaded once.  When one of
    these steps fails, its error is returned and no call follows.
    Otherwise the release history is asked next, no loading call follows,
    and an install, when one is issued, carries the chart of the last
    load. *)
Theorem InstallChartByPath_loads_dependencies_first :
  forall (W V : Type) (E : Env W V) (helmClientWrapper : HelmClientWrapper)
         (releaseName releaseNamespace chartPath : string) (values : option V)
         (st : St W),
  exists res c0 deps c post st',
    InstallChartByPath E helmClientWrapper releaseName releaseNamespace
                       chartPath values st = Some (res, st')
    /\ trace st'
       = (trace st ++ Build_Event (ChartutilLoad chartPath) c0 :: deps ++ post)%list
    /\ match err_of c0 with
       | Some e => res = (None, Some e) /\ deps = [] /\ post = []
       | None =>
           depShape chartPath (chart_of c0) c deps
           /\ match snd c with
              | Some e => res = (None, Some e) /\ post = []
              | None =>
                  hd_error (map call post)
                  = Some (ReleaseHistory (Client helmClientWrapper) releaseName 1)
                  /\ forallb (fun c => negb (chartLoading c)) (map call post) = true
                  /\ forall chart, In chart (chartsInstalled post) ->
                                   chart = fst c
              end
       end.
Proof.
  intros W V E w name ns path values st.
  unfold InstallChartByPath. run_call c0 st0 T0.
  destruct (err_of c0) as [e0|] eqn:H0.
  { eexists _, c0, [], (chart_of c0, None), [], st0. rewrite H0.
    split; [reflexivity|]. split; [exact T0|]. auto. }
  destruct (resolveDependencies_trace E path (chart_of c0) st0)
    as (c & deps & st1 & H1 & T1 & Hshape).
  rewrite (bind_Some _ _ _ _ _ H1).
  destruct (snd c) as [e1|] eqn:Hc.
  { eexists _, c0, deps, c, [], st1. rewrite H0, Hc.
    split; [reflexivity|]. split.
    { rewrite T1, T0, app_nil_r, <- app_assoc. reflexivity. }
    auto. }
  unfold ReleaseExists. unfold bind at 1. run_call h st2 T2.
  assert (Hleaf1 : forall res : option Release * Go.error,
    exists res' c0' deps' c' post st',
      Some (res, st2) = Some (res', st')
      /\ trace st'
         = (trace st ++ Build_Event (ChartutilLoad path) c0' :: deps' ++ post)%list
      /\ match err_of c0' with
         | Some e => res' = (None, Some e) /\ deps' = [] /\ post = []
         | None =>
             depShape path (chart_of c0') c' deps'
             /\ match snd c' with
                | Some e => res' = (None, Some e) /\ post = []
                | None =>
                    hd_error (map call post)
                    = Some (ReleaseHistory (Client w) name 1)
                    /\ forallb (fun c => negb (chartLoading c)) (map call post)
                       = true
                    /\ forall chart, In chart (chartsInstalled post) ->
                                     chart = fst c'
                end
         end).
  { intros res. eexists res, c0, deps, c, [_], st2. rewrite H0, Hc.
    split; [reflexivity|]. split.
    { rewrite T2, T1, T0, <- !app_assoc. reflexivity. }
    split; [exact Hshape|]. split; [reflexivity|]. split; [reflexivity|].
    intros chart []. }
  assert (Hleaf2 : forall (res : option Release * Go.error) call2 r (st3 : St W),
    chartLoading call2 = false ->
    (forall chart, In chart (chartsInstalled [Build_Event call2 r]) ->
                   chart = fst c) ->
    trace st3 = (trace st2 ++ [Build_Event call2 r])%list ->
    exists res' c0' deps' c' post st',
      Some (res, st3) = Some (res', st')
      /\ trace st'
         = (trace st ++ Build_Event (ChartutilLoad path) c0' :: deps' ++ post)%list
      /\ match err_of c0' with
         | Some e => res' = (None, Some e) /\ deps' = [] /\ post = []
         | None =>
             depShape path (chart_of c0') c' deps'
             /\ match snd c' with
                | Some e => res' = (None, Some e) /\ post = []
                | None =>
                    hd_error (map call post)
                    = Some (ReleaseHistory (Client w) name 1)
                    /\ forallb (fun c => negb (chartLoading c)) (map call post)
                       = true
                    /\ forall chart, In chart (chartsInstalled post) ->
                                     chart = fst c'
                end
         end).
  { intros res call2 r st3 Hload Hchart T3.
    eexists res, c0, deps, c, [_; _], st3. rewrite H0, Hc.
    split; [reflexivity|]. split.
    { rewrite T3, T2, T1, T0, <- !app_assoc. reflexivity. }
    split; [exact Hshape|]. split; [reflexivity|]. split.
    { simpl. now rewrite Hload. }
    exact Hchart. }
  destruct (err_of h) as [text|].
  - destruct (Contains text (ErrReleaseNotFound E name)); unfold ret at 1;
      [|apply Hleaf1].
    destruct values as [v|].
    + destruct (yaml_Marshal E v) as [bytes [ye|]]; [apply Hleaf1|].
      run_call r st3 T3.
      destruct (err_of r); unfold ret;
        (eapply Hleaf2; [ | | exact T3];
         [ reflexivity
         | intros chart Hin; cbn in Hin; destruct Hin as [<-|[]]; reflexivity ]).
    + run_call r st3 T3.
      destruct (err_of r); unfold ret;
        (eapply Hleaf2; [ | | exact T3];
         [ reflexivity
         | intros chart Hin; cbn in Hin; destruct Hin as [<-|[]]; reflexivity ]).
  - unfold ret at 1. destruct values as [v|].
    + destruct (yaml_Marshal E v) as [bytes [ye|]]; [apply Hleaf1|].
      run_call r st3 T3.
      destruct (err_of r); unfold ret;
        (eapply Hleaf2; [ | | exact T3]; [reflexivity | intros chart []]).
    + run_call r st3 T3.
      destruct (err_of r); unfold ret;
        (eapply Hleaf2; [ | | exact T3]; [reflexivity | intros chart []]).
Qed.

Example InstallChartByPath_with_unmet_dependencies :
  option_map (fun x => (fst x, map call (trace (snd x))))
    (InstallChartByPath (scripted dependenciesUnmet) exampleWrapper
                        "db" "apps" "./chart" None start)
  = Some ((None, Some "no repository definition for redis"),
          [ChartutilLoad "./chart";
           ChartutilLoadRequirements
             {| chart_Name := "./chart";
                chart_Dependencies := ["redis"; "mysql"] |};
           ManagerUpdate]).
Proof. reflexivity. Qed.

(** ** updateRepos: the group of goroutines neither blocks nor runs on *)

(** X13: at every point of every interleaving of the refresh goroutines,
    the WaitGroup counter is the number of goroutines that have not yet
    passed [wg.Done()], so it is never negative; as long as the main
    goroutine is not past [wg.Wait()] some goroutine can act, so the
    group cannot deadlock; and every action uses up some of a budget that
    starts at 4 per repository plus 1, so no interleaving goes on for
    ever. *)
Theorem refresh_group_neither_deadlocks_nor_runs_forever :
  forall (W V : Type) (E : Env W V) (home : string)
         (repos : list ChartRepository) (st : St W) (g : Group),
    run E home (launch repos st) g ->
    wg g = Z.of_nat (active (goroutines g))
    /\ 0 <= wg g
    /\ (returned g = false -> exists c g', step E home c g = Some g')
    /\ (budget g <= 1 + 4 * List.length repos)%nat
    /\ (forall c g', step E home c g = Some g' -> (budget g' < budget g)%nat).
Proof.
  intros W V E home repos st g Hrun.
  destruct (Joined_run E home repos st g Hrun) as (evs & HJ).
  split; [exact (joined_counter _ _ _ _ HJ)|].
  split; [rewrite (joined_counter _ _ _ _ HJ); lia|].
  split.
  { intros Hr.
    destruct (enabled E home g) as [|c cs] eqn:Hen.
    - exfalso. exact (enabled_until_returned E home _ _ _ _ HJ Hr Hen).
    - exists c. apply enabled_steps. rewrite Hen. now left. }
  split.
  { clear HJ evs. remember (launch repos st) as g0 eqn:Hg0.
    induction Hrun as [g|g g' g'' Hrun IH [c Hstep]].
    - subst g. unfold budget. simpl. lia.
    - pose proof (budget_step E home _ _ _ Hstep). specialize (IH Hg0). lia. }
  intros c g' Hstep. exact (budget_step E home _ _ _ Hstep).
Qed.

Lemma refresh_group_witness :
  wg (launch [ {| Config := stableEntry |} ] start) = 0
  /\ exists c g',
      step (scripted (fun c _ => allFine c)) "/home/dev/.devspace/helm" c
           (launch [ {| Config := stableEntry |} ] start) = Some g'.
Proof.
  destruct (refresh_group_neither_deadlocks_nor_runs_forever nat string
              (scripted (fun c _ => allFine c)) "/home/dev/.devspace/helm"
              [ {| Config := stableEntry |} ] start
              (launch [ {| Config := stableEntry |} ] start)
              (run_refl _ _ _))
    as (Hwg & _ & Hlive & _).
  split; [exact Hwg | apply Hlive; reflexivity].
Defined.

(** ** More runs on the test doubles *)

Example ensureTiller_on_a_fresh_cluster :
  option_map (fun x => (fst x, created (trace (snd x))))
    (ensureTiller (scripted freshCluster) 25 exampleConfig false start)
  = Some (None,
          [ (KServiceAccount, "tiller-ns", "devspace-tiller");
            (KRole, "tiller-ns", "tiller-config-manager");
            (KRoleBinding, "tiller-ns", "tiller-config-manager-binding");
            (KRole, "apps", "devspace-tiller");
            (KRoleBinding, "apps", "devspace-tiller-binding") ]).
Proof. vm_compute. reflexivity. Qed.

Example tunnel_never_opens :
  option_map (fun x => (snd (fst x), slept (trace (snd x)),
                        List.length (tunnelReplies (trace (snd x)))))
    (loop 25 (tunnelBody (scripted tunnelDown) exampleConfig "kubeconfig"
                         (5 * Second))
          (2 * 60 * Second, Build_Tunnel 0, None) start)
  = Some (Some "could not find a ready tiller pod", 2 * 60 * Second, 24%nat).
Proof. vm_compute. reflexivity. Qed.

Example one_wait_on_the_terminal :
  option_map (fun s => LoadingText.written (LoadingText.Stream (LoadingText.spinner s)))
    (match LoadingText.firstRender
             (LoadingText.Start
                (LoadingText.idle
                   {| LoadingText.Stream := []; LoadingText.Message := "Wait";
                      LoadingText.loadingRune := 0; LoadingText.isShown := false;
                      LoadingText.stopChan := false |})) with
     | Some s => match LoadingText.ticks 1 s with
                 | Some s' => LoadingText.Stop s'
                 | None => None
                 end
     | None => None
     end)
  = Some ("[WAIT] | Wait" ++ LoadingText.carriageReturn ++ "[WAIT] / Wait"
          ++ LoadingText.carriageReturn ++ "             "
          ++ LoadingText.carriageReturn).
Proof. vm_compute. reflexivity. Qed.

Example dirOf_of_the_stable_cache :
  filepath_Dir (scripted (fun c _ => allFine c))
    "/home/dev/.devspace/helm/repository/cache/stable-index.yaml"
  = "/home/dev/.devspace/helm/repository/cache"
  /\ dirOf "index.yaml" = "." /\ dirOf "/etc" = "/".
Proof. repeat split. Qed.

Example quoted_release_names :
  ErrReleaseNotFound (scripted (fun c _ => allFine c)) "db"
  = "release: " ++ quote ++ "db" ++ quote ++ " not found"
  /\ quoted (String (ascii_of_nat 9) ("a" ++ quote))
     = quote ++ LoadingText.backslash ++ "ta" ++ LoadingText.backslash
       ++ quote ++ quote.
Proof. split; reflexivity. Qed.

(** The wait ends at its first poll when the lookup fails: the empty
    deployment has as many ready replicas as desired, none. *)
Example ensureTiller_wait_ends_on_a_failed_lookup :
  option_map (fun x => (fst x, map call (trace (snd x)), failures (trace (snd x))))
    (ensureTiller (scripted lookupLost) 25 exampleConfig false start)
  = Some (None,
          [DeploymentsGet "tiller-ns" "tiller-deploy";
           LogStartWait "Waiting for Tiller server to start";
           DeploymentsGet "tiller-ns" "tiller-deploy";
           LogStopWait;
           LogDone "Tiller server started"],
          ["connection refused"]).
Proof. vm_compute. reflexivity. Qed.
